(** * lxmfy-js8call-bot: the ingestion-and-routing engine of [bot.py]

    A shallow embedding of [JS8CallBot] (src/lxmfy_js8call_bot/bot.py):
    the Python string primitives the classifier relies on, the
    subscription registry with its [defaultdict(set)] maps, the write-through
    to the key/value store, the fan-out dispatcher, the radio-link loop and
    the group listing.

    Characters are the code points 0..255 (Latin-1), carried by [ascii];
    [str.strip] and [str.isspace] are given on that range. [str.lower] is
    not: on the text the link decodes it depends on the context of a letter
    and may change the length, so it is taken as a collaborator of which
    nothing is assumed. *)

From Stdlib Require Import Ascii String List Bool Arith Lia.
From stdpp Require Import base gmap strings list pretty.

Local Open Scope string_scope.
#[local] Set Warnings "-clear-no-such-hyp".
#[local] Set Default Proof Using "Type".

(** ** Python string primitives *)

Module Py.

(** [str.isspace] on one code point below 256: TAB..CR, FS..US, SPACE,
    NEL (0x85) and NBSP (0xA0). *)
Definition isspace (c : ascii) : bool :=
  let n := nat_of_ascii c in
  (((9 <=? n) && (n <=? 13)) || ((28 <=? n) && (n <=? 32))
   || (n =? 133) || (n =? 160))%nat.

Fixpoint lstrip (s : string) : string :=
  match s with
  | EmptyString => EmptyString
  | String c r => if isspace c then lstrip r else s
  end.

Fixpoint rstrip (s : string) : string :=
  match s with
  | EmptyString => EmptyString
  | String c r =>
      match rstrip r with
      | EmptyString => if isspace c then EmptyString else String c EmptyString
      | r' => String c r'
      end
  end.

(** [s.strip()] *)
Definition strip (s : string) : string := rstrip (lstrip s).

(** [s.split(sep)] for a one-character separator: the first field and the
    fields after it; the result of [split] is never the empty list. *)
Fixpoint split_fields (sep : ascii) (s : string) : string * list string :=
  match s with
  | EmptyString => (EmptyString, [])
  | String c r =>
      let (h, t) := split_fields sep r in
      if Ascii.eqb c sep then (EmptyString, h :: t) else (String c h, t)
  end.

Definition split (sep : ascii) (s : string) : list string :=
  let (h, t) := split_fields sep s in h :: t.

(** [sep.join(l)] *)
Fixpoint join (sep : string) (l : list string) : string :=
  match l with
  | [] => EmptyString
  | x :: t =>
      match t with
      | [] => x
      | _ => x ++ sep ++ join sep t
      end
  end.

(** [s.startswith(p)] *)
Fixpoint startswith (s p : string) {struct p} : bool :=
  match p with
  | EmptyString => true
  | String a p' =>
      match s with
      | EmptyString => false
      | String b s' => Ascii.eqb a b && startswith s' p'
      end
  end.

(** [s[n:]] *)
Fixpoint slice_from (n : nat) (s : string) : string :=
  match n with
  | O => s
  | S k => match s with
           | EmptyString => EmptyString
           | String _ r => slice_from k r
           end
  end.

(** [needle in hay] *)
Fixpoint contains (needle hay : string) : bool :=
  startswith hay needle
  || match hay with
     | EmptyString => false
     | String _ r => contains needle r
     end.

(** [any(f(x) for x in l)] *)
Definition any {A} (f : A -> bool) (l : list A) : bool := existsb f l.

(** the first [x] of [l] with [f x], as a [for ... if ...: ...; break] finds it *)
Fixpoint first_match {A} (f : A -> bool) (l : list A) : option A :=
  match l with
  | [] => None
  | x :: t => if f x then Some x else first_match f t
  end.

End Py.

(** ** The bot object *)

(** A member of a decoded JSON object: a string or anything else. *)
Inductive jval :=
  | JStr (s : string)
  | JOther.

(** What [json.loads] returns: an object, seen through its ['type'] and
    ['value'] members (absent members are [None]), or any other JSON value. *)
Inductive decoded :=
  | JObject (type value : option jval)
  | JNotObject.

Inductive level := DEBUG | INFO | WARNING | ERROR.

(** The sections of [config.ini] the bot reads as strings; [None] is an
    absent option, for which [config.get] answers its [fallback]. *)
Record config := {
  cfg_js8groups : option string;
  cfg_js8urgent : option string;
  cfg_default_groups : option string
}.

(** One entry of the ['users'] snapshot in the key/value store. *)
Record user_data := {
  groups : option (list string);
  muted_groups : option (list string)
}.

(** Effects on the outside world, in program order. *)
Inductive io_event :=
  | EvConnect
  | EvRecv
  | EvSleep (seconds : nat).

(** The attributes of [self] the engine reads and writes, and the
    collaborators it calls: [storage] is the ['users'] key of the key/value
    store ([storage_up = false]: its [get] and [set] raise), [sent] the calls
    of [self.send] with their outcome, [db] the rows given to
    [db.insert_message], [logger] the log records, [trace] the socket and
    clock calls of the radio-link thread. The socket handle
    [js8call_socket] carries no information beyond [js8call_connected] and
    [trace] and has no field; the text of a caught exception is left out of
    the log records. *)
Record bot := {
  config_of : config;
  js8groups : list string;
  js8urgent : list string;
  blocked_words : list string;
  distro_list : gset string;
  user_groups : gmap string (gset string);
  muted_users : gmap string (gset string);
  storage : option (gmap string user_data);
  storage_up : bool;
  sent : list (string * string * bool);
  db : list (string * string * string);
  logger : list (level * string);
  js8call_connected : bool;
  trace : list io_event
}.

Definition set_catalogs (g u : list string) (b : bot) : bot :=
  {| config_of := config_of b; js8groups := g; js8urgent := u;
     blocked_words := blocked_words b; distro_list := distro_list b;
     user_groups := user_groups b; muted_users := muted_users b;
     storage := storage b; storage_up := storage_up b; sent := sent b;
     db := db b; logger := logger b;
     js8call_connected := js8call_connected b; trace := trace b |}.

Definition set_registry (d : gset string) (ug mu : gmap string (gset string))
    (b : bot) : bot :=
  {| config_of := config_of b; js8groups := js8groups b;
     js8urgent := js8urgent b; blocked_words := blocked_words b;
     distro_list := d; user_groups := ug; muted_users := mu;
     storage := storage b; storage_up := storage_up b; sent := sent b;
     db := db b; logger := logger b;
     js8call_connected := js8call_connected b; trace := trace b |}.

Definition set_user_groups (ug : gmap string (gset string)) (b : bot) : bot :=
  set_registry (distro_list b) ug (muted_users b) b.

Definition set_muted_users (mu : gmap string (gset string)) (b : bot) : bot :=
  set_registry (distro_list b) (user_groups b) mu b.

Definition set_storage (st : option (gmap string user_data)) (b : bot) : bot :=
  {| config_of := config_of b; js8groups := js8groups b;
     js8urgent := js8urgent b; blocked_words := blocked_words b;
     distro_list := distro_list b; user_groups := user_groups b;
     muted_users := muted_users b; storage := st;
     storage_up := storage_up b; sent := sent b; db := db b;
     logger := logger b; js8call_connected := js8call_connected b;
     trace := trace b |}.

Definition set_sent (l : list (string * string * bool)) (b : bot) : bot :=
  {| config_of := config_of b; js8groups := js8groups b;
     js8urgent := js8urgent b; blocked_words := blocked_words b;
     distro_list := distro_list b; user_groups := user_groups b;
     muted_users := muted_users b; storage := storage b;
     storage_up := storage_up b; sent := l; db := db b;
     logger := logger b; js8call_connected := js8call_connected b;
     trace := trace b |}.

(** [self.db.insert_message(sender, receiver, message)] *)
Definition insert_message (sender receiver message : string) (b : bot) : bot :=
  {| config_of := config_of b; js8groups := js8groups b;
     js8urgent := js8urgent b; blocked_words := blocked_words b;
     distro_list := distro_list b; user_groups := user_groups b;
     muted_users := muted_users b; storage := storage b;
     storage_up := storage_up b; sent := sent b;
     db := db b ++ [(sender, receiver, message)];
     logger := logger b; js8call_connected := js8call_connected b;
     trace := trace b |}.

(** [self.logger.<level>(text)] *)
Definition log (lv : level) (text : string) (b : bot) : bot :=
  {| config_of := config_of b; js8groups := js8groups b;
     js8urgent := js8urgent b; blocked_words := blocked_words b;
     distro_list := distro_list b; user_groups := user_groups b;
     muted_users := muted_users b; storage := storage b;
     storage_up := storage_up b; sent := sent b; db := db b;
     logger := logger b ++ [(lv, text)];
     js8call_connected := js8call_connected b; trace := trace b |}.

(** The store starts or stops answering. *)
Definition set_storage_up (up : bool) (b : bot) : bot :=
  {| config_of := config_of b; js8groups := js8groups b;
     js8urgent := js8urgent b; blocked_words := blocked_words b;
     distro_list := distro_list b; user_groups := user_groups b;
     muted_users := muted_users b; storage := storage b;
     storage_up := up; sent := sent b; db := db b;
     logger := logger b; js8call_connected := js8call_connected b;
     trace := trace b |}.

Definition set_connected (c : bool) (b : bot) : bot :=
  {| config_of := config_of b; js8groups := js8groups b;
     js8urgent := js8urgent b; blocked_words := blocked_words b;
     distro_list := distro_list b; user_groups := user_groups b;
     muted_users := muted_users b; storage := storage b;
     storage_up := storage_up b; sent := sent b; db := db b;
     logger := logger b; js8call_connected := c; trace := trace b |}.

Definition emit (e : io_event) (b : bot) : bot :=
  {| config_of := config_of b; js8groups := js8groups b;
     js8urgent := js8urgent b; blocked_words := blocked_words b;
     distro_list := distro_list b; user_groups := user_groups b;
     muted_users := muted_users b; storage := storage b;
     storage_up := storage_up b; sent := sent b; db := db b;
     logger := logger b; js8call_connected := js8call_connected b;
     trace := trace b ++ [e] |}.

(** [d[k]] on a [defaultdict(set)]: reading a missing key inserts it with
    the empty set. *)
Definition dd_getitem (d : gmap string (gset string)) (k : string)
    : gset string * gmap string (gset string) :=
  match d !! k with
  | Some v => (v, d)
  | None => (∅, <[k := ∅]> d)
  end.

(** [d.get(k, set())]: no insertion. *)
Definition dd_get (d : gmap string (gset string)) (k : string) : gset string :=
  default ∅ (d !! k).

(** [config.get(section, option, fallback='')] *)
Definition config_get (o : option string) : string := default EmptyString o.

(** [setup_js8call], the two catalogs (lines 65-68). *)
Definition setup_js8call (b : bot) : bot :=
  let g := Py.split "," (config_get (cfg_js8groups (config_of b))) in
  let u := Py.split "," (config_get (cfg_js8urgent (config_of b))) in
  set_catalogs (map Py.strip g) (map Py.strip u) b.

(** How [json.loads] ends on one line: with the decoded value, with a
    [JSONDecodeError], or with another exception (a [RecursionError] on a
    line nested too deep). *)
Inductive loads_outcome :=
  | Loaded (data : decoded)
  | DecodeError
  | LoadsRaises.

(** The collaborators outside the repository: [deliver user text] is the
    delivery capability behind [self.send] (whether the delivery of [text]
    to [user] succeeds), [json_loads] is [json.loads], [str_lower] is
    [str.lower]. *)
Record collaborators := {
  deliver : string -> string -> bool;
  json_loads : string -> loads_outcome;
  str_lower : string -> string
}.

(** ** The engine *)

Section Engine.

(** The library calls the engine depends on. *)
Variable io : collaborators.

(** [self.send(user, text)] *)
Definition send (user text : string) (b : bot) : bot :=
  set_sent (sent b ++ [(user, text, deliver io user text)]) b.

(** *** Subscription store (lines 70-107) *)

(** One turn of the loop of [load_state_from_storage] (lines 88-90). *)
Definition load_user (b : bot) (item : string * user_data) : bot :=
  let '(user_hash, ud) := item in
  set_registry ({[user_hash]} ∪ distro_list b)
    (<[user_hash := list_to_set (default [] (groups ud))]> (user_groups b))
    (<[user_hash := list_to_set (default [] (muted_groups ud))]> (muted_users b))
    b.

Definition load_state_from_storage (b : bot) : bot :=
  if storage_up b then
    let users_data := default ∅ (storage b) in
    let b1 := if decide (users_data = ∅) then b
              else foldl load_user b (map_to_list users_data) in
    log INFO ("Loaded " ++ pretty (size (distro_list b1))
              ++ " users from storage") b1
  else log ERROR "Error loading state from storage" b.

Definition setup_state (b : bot) : bot :=
  load_state_from_storage (set_registry ∅ ∅ ∅ b).

(** One turn of the loop of [save_state_to_storage] (lines 99-103); both
    [defaultdict] reads may insert the user. *)
Definition save_user
    (acc : gmap string (gset string) * gmap string (gset string)
           * gmap string user_data)
    (user : string) :=
  let '(ug, mu, users_data) := acc in
  let '(g, ug') := dd_getitem ug user in
  let '(m, mu') := dd_getitem mu user in
  (ug', mu',
   <[user := {| groups := Some (elements g);
                muted_groups := Some (elements m) |}]> users_data).

Definition save_state_to_storage (b : bot) : bot :=
  let '(ug, mu, users_data) :=
    foldl save_user (user_groups b, muted_users b, ∅)
          (elements (distro_list b)) in
  let b1 := set_registry (distro_list b) ug mu b in
  if storage_up b
  then log DEBUG "Saved state to storage" (set_storage (Some users_data) b1)
  else log ERROR "Error saving state to storage" b1.

(** *** Subscription registry (lines 109-174) *)

(** [[g.strip() for g in config.get(..).split(',') if g.strip()]] *)
Definition default_groups (b : bot) : list string :=
  filter (λ g, g ≠ EmptyString)
    (map Py.strip
       (Py.split "," (config_get (cfg_default_groups (config_of b))))).

(** [self.user_groups[user].add(group)] *)
Definition add_group (user : string) (ug : gmap string (gset string))
    (group : string) : gmap string (gset string) :=
  let '(s, ug') := dd_getitem ug user in
  <[user := {[group]} ∪ s]> ug'.

Definition add_to_distro_list (user : string) (b : bot) : bot :=
  if decide (user ∉ distro_list b) then
    let dg := default_groups b in
    let b1 := set_registry ({[user]} ∪ distro_list b)
                (foldl (add_group user) (user_groups b) dg)
                (muted_users b) b in
    let b2 := save_state_to_storage b1 in
    let welcome_msg :=
      "You have been added to the JS8Call message group"
      ++ (match dg with
          | [] => EmptyString
          | _ => " and the following default groups: " ++ Py.join ", " dg
          end)
      ++ ". You will receive messages when they are available." in
    log INFO ("Added " ++ user ++ " to distribution list")
      (send user welcome_msg b2)
  else send user "You are already in the JS8Call message group." b.

Definition remove_from_distro_list (user : string) (b : bot) : bot :=
  if decide (user ∈ distro_list b) then
    let b1 := set_registry (distro_list b ∖ {[user]})
                (delete user (user_groups b))
                (delete user (muted_users b)) b in
    let b2 := save_state_to_storage b1 in
    log INFO ("Removed " ++ user ++ " from distribution list")
      (send user
         "You have been removed from the JS8Call message group and all groups."
         b2)
  else send user "You are not in the JS8Call message group." b.

Definition add_user_to_groups (user : string) (gs : list string) (b : bot)
    : bot :=
  if decide (user ∈ distro_list b) then
    let step ug group :=
      if decide (group ∈ js8groups b ∨ group ∈ js8urgent b)
      then add_group user ug group else ug in
    let b1 := set_user_groups (foldl step (user_groups b) gs) b in
    let b2 := save_state_to_storage b1 in
    log INFO ("Added " ++ user ++ " to groups: " ++ Py.join ", " gs)
      (send user
         ("You have been added to the following groups: " ++ Py.join ", " gs)
         b2)
  else
    send user
      "You need to join the JS8Call message group first. Use /add command." b.

Definition remove_user_from_group (user group : string) (b : bot) : bot :=
  if decide (user ∈ distro_list b) then
    let '(s, ug) := dd_getitem (user_groups b) user in
    if decide (group ∈ s) then
      let b1 := set_user_groups (<[user := s ∖ {[group]}]> ug) b in
      let b2 := save_state_to_storage b1 in
      log INFO ("Removed " ++ user ++ " from group: " ++ group)
        (send user ("You have been removed from the group: " ++ group) b2)
    else send user ("You are not in the group: " ++ group)
           (set_user_groups ug b)
  else send user ("You are not in the group: " ++ group) b.

(** *** Fan-out dispatcher (lines 341-368) *)

(** One turn of the loop of [_send_to_users] (lines 365-367): the test on
    [user], with the insertions of the [defaultdict] reads and the
    short-circuit of [and], and the users selected so far. *)
Definition select_user (group : option string)
    (acc : gmap string (gset string) * gmap string (gset string)
           * list string)
    (user : string) :=
  let '(ug, mu, futures) := acc in
  match group with
  | None => (ug, mu, (futures ++ [user])%list)
  | Some g =>
      let '(s, ug') := dd_getitem ug user in
      if decide (g ∈ s) then
        let '(m, mu') := dd_getitem mu user in
        if decide (g ∉ m) then (ug', mu', (futures ++ [user])%list)
        else (ug', mu', futures)
      else (ug', mu, futures)
  end.

(** The pool runs one [self.send] per selected user; a delivery that fails
    stays inside its future, and [concurrent.futures.wait] returns when all
    are done. The order of [sent] is the order of submission. *)
Definition _send_to_users (message : string) (group : option string)
    (b : bot) : bot :=
  let '(ug, mu, futures) :=
    foldl (select_user group) (user_groups b, muted_users b, [])
          (elements (distro_list b)) in
  foldl (λ b' user, send user message b')
        (set_registry (distro_list b) ug mu b) futures.

Definition forward_direct_message (sender message : string) (b : bot) : bot :=
  let formatted_message :=
    "Direct message from " ++ sender ++ ": " ++ message in
  let b1 := _send_to_users formatted_message None b in
  let b2 := insert_message sender "DIRECT" message b1 in
  log INFO ("Forwarded direct message from " ++ sender) b2.

Definition forward_group_message (sender group message : string) (b : bot)
    : bot :=
  let formatted_message :=
    "Group message from " ++ sender ++ " to " ++ group ++ ": " ++ message in
  let b1 := _send_to_users formatted_message (Some group) b in
  let b2 := insert_message sender group message b1 in
  log INFO ("Forwarded group message from " ++ sender ++ " to " ++ group) b2.

Definition forward_urgent_message (sender group message : string) (b : bot)
    : bot :=
  let formatted_message :=
    "URGENT message from " ++ sender ++ " to " ++ group ++ ": " ++ message in
  let b1 := _send_to_users formatted_message (Some group) b in
  let b2 := insert_message sender group message b1 in
  log INFO ("Forwarded urgent message from " ++ sender ++ " to " ++ group) b2.

(** *** Classifier and router (lines 301-339) *)

(** Lines 319-336: forward by scope. *)
Definition forward_by_scope (sender content : string) (b : bot) : bot :=
  if Py.any (Py.startswith content) (js8groups b) then
    match Py.first_match (Py.startswith content) (js8groups b) with
    | Some group =>
        let message :=
          Py.strip (Py.slice_from (String.length group) content) in
        forward_group_message sender group message b
    | None => b
    end
  else if Py.any (Py.startswith content) (js8urgent b) then
    match Py.first_match (Py.startswith content) (js8urgent b) with
    | Some group =>
        let message :=
          Py.strip (Py.slice_from (String.length group) content) in
        forward_urgent_message sender group message b
    | None => b
    end
  else forward_direct_message sender content b.

(** Line 315: [any(word.lower() in content.lower() for word in blocked_words)] *)
Definition has_blocked_word (content : string) (b : bot) : bool :=
  Py.any (λ word, Py.contains (str_lower io word) (str_lower io content))
         (blocked_words b).

(** Lines 314-336: the blocked-word check, then the forwarding. *)
Definition check_and_forward (sender content : string) (b : bot) : bot :=
  if has_blocked_word content b
  then log INFO ("Message from " ++ sender
                 ++ " contains blocked words. Skipping.") b
  else forward_by_scope sender content b.

(** [v == s] for a decoded member [v] and a string [s] *)
Definition jval_eq (v : jval) (s : string) : bool :=
  match v with
  | JStr k => bool_decide (k = s)
  | JOther => false
  end.

(** Any exception inside the body ([data] is no object, a member is
    missing, [value] is no string) ends in the handler of line 338. *)
Definition handle_js8call_message (data : decoded) (b : bot) : bot :=
  match data with
  | JObject (Some ty) value =>
      if jval_eq ty "RX.DIRECTED" then
        match value with
        | Some (JStr v) =>
            let parts := Py.split ":" v in
            if (length parts <? 2)%nat then
              log WARNING ("Invalid directed message format: " ++ v) b
            else
              let sender := Py.strip (hd EmptyString parts) in
              let content := Py.strip (Py.join ":" (tl parts)) in
              check_and_forward sender content b
        | _ => log ERROR "Error handling JS8Call message" b
        end
      else b
  | _ => log ERROR "Error handling JS8Call message" b
  end.

(** *** Radio link (lines 247-299) *)

(** What the socket does when asked: [socket()] followed by [connect]. *)
Inductive connect_outcome :=
  | ConnectOk
  | ConnectRaises
  | SocketRaises.

(** [recv(4096).decode('utf-8')]: the text read ([EmptyString] on peer
    close), or an exception of [recv] or of [decode]. *)
Inductive recv_outcome :=
  | Recv (data : string)
  | RecvRaises.

(** How a call that may raise ends. *)
Inductive outcome :=
  | Returned (b : bot)
  | Raised (b : bot).

(** [socket()] stands outside the [try] of [connect_js8call]: its exception
    leaves the function. *)
Definition connect_js8call (c : connect_outcome) (b : bot) : outcome :=
  let b := emit EvConnect (log INFO "Connecting to JS8Call" b) in
  match c with
  | SocketRaises => Raised b
  | ConnectOk => Returned (log INFO "Connected to JS8Call" (set_connected true b))
  | ConnectRaises =>
      Returned (set_connected false (log ERROR "Failed to connect to JS8Call" b))
  end.

(** The body of the [for] of lines 287-295: the inner handler catches a
    [JSONDecodeError] only, any other exception of [json.loads] leaves the
    body. *)
Definition process_line (b : bot) (message : string) : outcome :=
  if decide (message = EmptyString) then Returned b
  else match json_loads io message with
       | Loaded msg_data => Returned (handle_js8call_message msg_data b)
       | DecodeError => Returned (log ERROR "Failed to parse JS8Call message" b)
       | LoadsRaises => Raised b
       end.

(** The [for] of lines 287-295: an exception that leaves the body ends the
    loop, and the lines after it are not looked at. *)
Fixpoint process_lines (b : bot) (messages : list string) : outcome :=
  match messages with
  | [] => Returned b
  | message :: rest =>
      match process_line b message with
      | Returned b' => process_lines b' rest
      | Raised b' => Raised b'
      end
  end.

(** The handler of line 297 catches what [recv], [decode] or the [for]
    raise. *)
Definition process_js8call_messages (r : recv_outcome) (b : bot) : bot :=
  if negb (js8call_connected b) then b
  else
    let b := emit EvRecv b in
    match r with
    | Recv data =>
        if decide (data = EmptyString) then
          log WARNING "JS8Call connection lost" (set_connected false b)
        else
          match process_lines b (Py.split "010" (Py.strip data)) with
          | Returned b' => b'
          | Raised b' =>
              set_connected false
                (log ERROR "Error processing JS8Call messages" b')
          end
    | RecvRaises =>
        set_connected false (log ERROR "Error processing JS8Call messages" b)
    end.

(** One turn of the [while True] of [js8call_loop], given what the socket
    will answer in this turn. *)
Definition js8call_iteration (env : connect_outcome * recv_outcome) (b : bot)
    : bot :=
  let '(c, r) := env in
  let attempt := if negb (js8call_connected b) then connect_js8call c b
                 else Returned b in
  match attempt with
  | Returned b1 =>
      let b2 := if js8call_connected b1 then process_js8call_messages r b1
                else b1 in
      emit (EvSleep 1) b2
  | Raised b1 => emit (EvSleep 5) (log ERROR "JS8Call loop error" b1)
  end.

(** The first [length envs] turns of the loop. *)
Definition js8call_loop (envs : list (connect_outcome * recv_outcome))
    (b : bot) : bot :=
  foldl (λ b' env, js8call_iteration env b') b envs.

(** *** Notions the statements use *)

(** The recipients of [_send_to_users]: the test of line 366 on the
    contents of the two maps, for the users of the distribution list. *)
Definition selected (group : option string)
    (ug mu : gmap string (gset string)) (u : string) : Prop :=
  match group with
  | None => True
  | Some g => g ∈ dd_get ug u ∧ g ∉ dd_get mu u
  end.

Definition eligible (group : option string) (b : bot) (u : string) : Prop :=
  u ∈ distro_list b ∧ selected group (user_groups b) (muted_users b) u.

(** The calls of [self.send] that carry [message] to the users [us]. *)
Definition deliveries (message : string) (us : list string)
    : list (string * string * bool) :=
  map (λ u, (u, message, deliver io u message)) us.

(** Two bots with the same three registry maps. *)
Definition same_registry (b b' : bot) : Prop :=
  distro_list b' = distro_list b
  ∧ user_groups b' = user_groups b
  ∧ muted_users b' = muted_users b.

(** Two bots whose registries answer every read alike. *)
Definition same_contents (b b' : bot) : Prop :=
  distro_list b' = distro_list b
  ∧ (∀ u, dd_get (user_groups b') u = dd_get (user_groups b) u)
  ∧ (∀ u, dd_get (muted_users b') u = dd_get (muted_users b) u).

(** Only users of the distribution list have entries in the two maps. *)
Definition registry_inv (b : bot) : Prop :=
  dom (user_groups b) ⊆ distro_list b ∧ dom (muted_users b) ⊆ distro_list b.

(** What handling a radio message may change in the registry and the
    link: no user joins or leaves, the maps gain entries for users of the
    distribution list only, the link and its trace are untouched. *)
Definition routing_step (b b' : bot) : Prop :=
  distro_list b' = distro_list b
  ∧ dom (user_groups b') ⊆ dom (user_groups b) ∪ distro_list b
  ∧ dom (muted_users b') ⊆ dom (muted_users b) ∪ distro_list b
  ∧ trace b' = trace b
  ∧ js8call_connected b' = js8call_connected b.

(** The snapshot [save_state_to_storage] writes for one user. *)
Definition snapshot (ug mu : gmap string (gset string)) (u : string)
    : user_data :=
  {| groups := Some (elements (dd_get ug u));
     muted_groups := Some (elements (dd_get mu u)) |}.

(** The states of the bot: [setup_state] at start, then the registry
    operations behind the commands, the messages handled, the turns of
    the radio-link loop, and the store that stops or starts answering. *)
Inductive reachable : bot -> Prop :=
  | reach_setup b : reachable (setup_state b)
  | reach_add user b :
      reachable b -> reachable (add_to_distro_list user b)
  | reach_remove user b :
      reachable b -> reachable (remove_from_distro_list user b)
  | reach_join user gs b :
      reachable b -> reachable (add_user_to_groups user gs b)
  | reach_leave user group b :
      reachable b -> reachable (remove_user_from_group user group b)
  | reach_message data b :
      reachable b -> reachable (handle_js8call_message data b)
  | reach_link env b :
      reachable b -> reachable (js8call_iteration env b)
  | reach_store up b :
      reachable b -> reachable (set_storage_up up b).

(** One operation of the bot on its state: a registry command, a handled
    radio event or a turn of the radio-link loop. *)
Inductive step : bot -> bot -> Prop :=
  | step_add user b : step b (add_to_distro_list user b)
  | step_remove user b : step b (remove_from_distro_list user b)
  | step_join user gs b : step b (add_user_to_groups user gs b)
  | step_leave user group b : step b (remove_user_from_group user group b)
  | step_message data b : step b (handle_js8call_message data b)
  | step_link env b : step b (js8call_iteration env b).

(** [RX.DIRECTED] event with the given [value]. *)
Definition rx_directed (v : string) : decoded :=
  JObject (Some (JStr "RX.DIRECTED")) (Some (JStr v)).

(** [g] is a prefix of [content]. *)
Definition is_prefix (g content : string) : Prop :=
  exists rest, content = g ++ rest.




(** A line on which [json.loads] raises something the body of the [for]
    does not catch. *)
Definition line_raises (line : string) : bool :=
  if decide (line = EmptyString) then false
  else match json_loads io line with
       | LoadsRaises => true
       | _ => false
       end.

(** A turn of reading after which the link is down: [recv] or [decode]
    raises, the peer has closed, or a line of the text read makes
    [json.loads] raise something else than a [JSONDecodeError]. *)
Definition read_breaks (r : recv_outcome) : bool :=
  match r with
  | RecvRaises => true
  | Recv data =>
      bool_decide (data = EmptyString)
      || existsb line_raises (Py.split "010" (Py.strip data))
  end.


(** The state an outcome carries. *)
Definition bot_of (o : outcome) : bot :=
  match o with
  | Returned b => b
  | Raised b => b
  end.

(** *** The group listing (lines 389-401) *)

(** The line of [show_groups] for one group (lines 397-400). *)
Definition group_line (subscribed muted : gset string) (group : string)
    : string :=
  let status := if decide (group ∈ subscribed) then "[Subscribed]"
                else "[Not subscribed]" in
  let status := if decide (group ∈ muted) then status ++ " [Muted]"
                else status in
  group ++ " " ++ status ++ String "010" EmptyString.

(** [show_groups]: both maps are read with [get], which inserts nothing;
    the set of the available groups is gone through in the order of
    [elements]. *)
Definition show_groups (user : string) (b : bot) : string :=
  let available_groups : gset string :=
    list_to_set (js8groups b ++ js8urgent b)%list in
  let subscribed := dd_get (user_groups b) user in
  let muted := dd_get (muted_users b) user in
  foldl (λ output group, output ++ group_line subscribed muted group)
        ("Available groups:" ++ String "010" EmptyString)
        (elements available_groups).

(** *** Further notions *)

(** [group] is in one of the two catalogs (line 152). *)
Definition in_catalog (b : bot) (group : string) : Prop :=
  group ∈ js8groups b ∨ group ∈ js8urgent b.

(** The store describes the registry: loading it would give the users of
    the distribution list with their groups and mutes. *)
Definition store_describes (b : bot) : Prop :=
  ∀ u, match default ∅ (storage b) !! u with
       | Some ud =>
           u ∈ distro_list b
           ∧ list_to_set (default [] (groups ud))
             = dd_get (user_groups b) u
           ∧ list_to_set (default [] (muted_groups ud))
             = dd_get (muted_users b) u
       | None => u ∉ distro_list b
       end.

(** What radio traffic leaves alone: the contents of the registry, the
    store, the configuration, the catalogs and the blocked words. *)
Definition radio_frame (b b' : bot) : Prop :=
  same_contents b b'
  ∧ storage b' = storage b
  ∧ storage_up b' = storage_up b
  ∧ config_of b' = config_of b
  ∧ js8groups b' = js8groups b
  ∧ js8urgent b' = js8urgent b
  ∧ blocked_words b' = blocked_words b.

(** Two bots that differ in their log records at most. *)
Definition eq_but_log (b b' : bot) : Prop :=
  config_of b' = config_of b
  ∧ js8groups b' = js8groups b
  ∧ js8urgent b' = js8urgent b
  ∧ blocked_words b' = blocked_words b
  ∧ distro_list b' = distro_list b
  ∧ user_groups b' = user_groups b
  ∧ muted_users b' = muted_users b
  ∧ storage b' = storage b
  ∧ storage_up b' = storage_up b
  ∧ sent b' = sent b
  ∧ db b' = db b
  ∧ js8call_connected b' = js8call_connected b
  ∧ trace b' = trace b.

(** The durations of the sleeps of a trace, in order. *)
Fixpoint sleeps (t : list io_event) : list nat :=
  match t with
  | [] => []
  | EvSleep n :: r => n :: sleeps r
  | _ :: r => sleeps r
  end.

(** The connect attempts of a trace. *)
Fixpoint connects (t : list io_event) : nat :=
  match t with
  | [] => 0
  | EvConnect :: r => S (connects r)
  | _ :: r => connects r
  end.

(** An event the handler can forward: an object of type [RX.DIRECTED]
    whose value is a string with a colon. *)
Definition forwardable (data : decoded) : Prop :=
  exists ty v,
    data = JObject (Some ty) (Some (JStr v))
    ∧ jval_eq ty "RX.DIRECTED" = true
    ∧ Py.contains ":" v = true.

(** The event a line of a read hands to the handler: none for an empty
    line and for a line that [json.loads] does not decode. *)
Definition line_event (line : string) : option decoded :=
  if decide (line = EmptyString) then None
  else match json_loads io line with
       | Loaded data => Some data
       | _ => None
       end.

(** The welcome message of [add_to_distro_list] (lines 123-126). *)
Definition welcome_text (b : bot) : string :=
  "You have been added to the JS8Call message group"
  ++ (match default_groups b with
      | [] => EmptyString
      | _ => " and the following default groups: "
             ++ Py.join ", " (default_groups b)
      end)
  ++ ". You will receive messages when they are available.".

(** *** Sample data *)

Definition sample_config : config :=
  {| cfg_js8groups := Some "TEAM, OPS";
     cfg_js8urgent := Some "ALERT";
     cfg_default_groups := Some "TEAM" |}.

Definition sample_bot : bot :=
  {| config_of := sample_config;
     js8groups := ["TEAM"; "OPS"]; js8urgent := ["ALERT"];
     blocked_words := ["Spam"];
     distro_list := {["alice"; "bob"; "carol"]};
     user_groups := {["alice" := {["TEAM"]}; "bob" := {["TEAM"; "ALERT"]}]};
     muted_users := {["bob" := {["TEAM"]}]};
     storage := None; storage_up := true;
     sent := []; db := []; logger := [];
     js8call_connected := true; trace := [] |}.

(** A bot whose configuration sets no option. *)
Definition bare_bot : bot :=
  {| config_of := {| cfg_js8groups := None; cfg_js8urgent := None;
                     cfg_default_groups := None |};
     js8groups := []; js8urgent := []; blocked_words := [];
     distro_list := {["alice"]}; user_groups := ∅; muted_users := ∅;
     storage := None; storage_up := true;
     sent := []; db := []; logger := [];
     js8call_connected := false; trace := [] |}.

(** A bot whose store does not answer, whose blocked words hold the empty
    string and whose ordinary-group setting ends in a comma. *)
Definition offline_bot : bot :=
  {| config_of := {| cfg_js8groups := Some "TEAM,"; cfg_js8urgent := None;
                     cfg_default_groups := None |};
     js8groups := ["TEAM"]; js8urgent := []; blocked_words := [EmptyString];
     distro_list := {["alice"]}; user_groups := ∅; muted_users := ∅;
     storage := None; storage_up := false;
     sent := []; db := []; logger := [];
     js8call_connected := false; trace := [] |}.

(** A line of a thousand opening brackets: [json.loads] gives up on it
    with a [RecursionError]. *)
Definition deep_line : string :=
  string_of_list_ascii (replicate 1000 "["%char).

(** [str.lower] on a text of ASCII characters. *)
Fixpoint ascii_lower (s : string) : string :=
  match s with
  | EmptyString => EmptyString
  | String c r =>
      let n := nat_of_ascii c in
      String (if ((65 <=? n) && (n <=? 90))%nat
              then ascii_of_nat (n + 32) else c)
             (ascii_lower r)
  end.

(** Deliveries to [bob] fail; the line of one brace does not parse, the
    line of a thousand brackets makes [json.loads] raise, any other line is
    an [RX.DIRECTED] event with the line as value; the texts lowered are
    ASCII. *)
Definition sample_io : collaborators :=
  {| deliver := λ user text, negb (bool_decide (user = "bob"));
     json_loads := λ line,
       if bool_decide (line = "{") then DecodeError
       else if bool_decide (line = deep_line) then LoadsRaises
       else Loaded (rx_directed line);
     str_lower := ascii_lower |}.

(** ** Facts about the string primitives *)

Lemma eqb_colon_prefix (sep c : ascii) (r : string) :
  Py.startswith (String c r) (String sep EmptyString) = Ascii.eqb sep c.
Proof. simpl. apply andb_true_r. Qed.

Lemma contains_cons_false (sep c : ascii) (r : string) :
  Py.contains (String sep EmptyString) (String c r) = false ->
  Ascii.eqb c sep = false /\ Py.contains (String sep EmptyString) r = false.
Proof.
  cbn [Py.contains]. rewrite eqb_colon_prefix.
  intros H. apply orb_false_iff in H as [H1 H2].
  rewrite Ascii.eqb_sym. auto.
Qed.

Lemma split_fields_no_sep (sep : ascii) (a : string) :
  Py.contains (String sep EmptyString) a = false ->
  Py.split_fields sep a = (a, []).
Proof.
  induction a as [|c r IH]; intros H; [reflexivity|].
  apply contains_cons_false in H as [Hc Hr].
  simpl. rewrite (IH Hr), Hc. reflexivity.
Qed.

Lemma split_fields_app (sep : ascii) (a c : string) :
  Py.contains (String sep EmptyString) a = false ->
  Py.split_fields sep (a ++ String sep c) = (a, Py.split sep c).
Proof.
  induction a as [|x r IH]; intros H.
  - simpl. unfold Py.split. destruct (Py.split_fields sep c).
    rewrite Ascii.eqb_refl. reflexivity.
  - apply contains_cons_false in H as [Hx Hr].
    simpl. rewrite (IH Hr), Hx. reflexivity.
Qed.

Lemma join_cons (sep x y : string) (t : list string) :
  Py.join sep (x :: y :: t) = x ++ sep ++ Py.join sep (y :: t).
Proof. reflexivity. Qed.

Lemma join_split (sep : ascii) (c : string) :
  Py.join (String sep EmptyString) (Py.split sep c) = c.
Proof.
  unfold Py.split. induction c as [|x r IH]; [reflexivity|].
  simpl. destruct (Py.split_fields sep r) as [h t].
  destruct (Ascii.eqb x sep) eqn:E.
  - apply Ascii.eqb_eq in E. subst x. rewrite join_cons, IH. reflexivity.
  - destruct t as [|y t].
    + simpl in *. congruence.
    + rewrite join_cons. rewrite join_cons in IH.
      rewrite <- IH. reflexivity.
Qed.

Lemma startswith_app (p r : string) : Py.startswith (p ++ r) p = true.
Proof.
  induction p as [|a p IH]; [reflexivity|].
  simpl. rewrite Ascii.eqb_refl. exact IH.
Qed.

Lemma startswith_inv (s p : string) :
  Py.startswith s p = true -> exists r, s = p ++ r.
Proof.
  revert s. induction p as [|a p IH]; intros s H.
  - exists s. reflexivity.
  - destruct s as [|b s]; [discriminate|].
    simpl in H. apply andb_true_iff in H as [Hab Hs].
    apply Ascii.eqb_eq in Hab. subst b.
    destruct (IH _ Hs) as [r ->]. exists r. reflexivity.
Qed.

Lemma startswith_iff (s p : string) :
  Py.startswith s p = true <-> exists r, s = p ++ r.
Proof.
  split; [apply startswith_inv|]. intros [r ->]. apply startswith_app.
Qed.

Lemma slice_from_app (p r : string) :
  Py.slice_from (String.length p) (p ++ r) = r.
Proof. induction p as [|a p IH]; [reflexivity|exact IH]. Qed.

Lemma contains_startswith (needle hay : string) :
  Py.startswith hay needle = true -> Py.contains needle hay = true.
Proof. intros H. destruct hay; cbn [Py.contains]; rewrite H; reflexivity. Qed.

Lemma contains_app (pre mid post : string) :
  Py.contains mid (pre ++ mid ++ post) = true.
Proof.
  induction pre as [|c pre IH].
  - apply contains_startswith. exact (startswith_app mid post).
  - change (Py.contains mid (String c (pre ++ mid ++ post)) = true).
    cbn [Py.contains]. rewrite IH. apply orb_true_r.
Qed.

Lemma contains_inv (needle hay : string) :
  Py.contains needle hay = true ->
  exists pre post, hay = pre ++ needle ++ post.
Proof.
  induction hay as [|c r IH]; cbn [Py.contains]; intros H.
  - rewrite orb_false_r in H. apply startswith_inv in H as [post ->].
    exists EmptyString, post. reflexivity.
  - apply orb_true_iff in H as [H|H].
    + apply startswith_inv in H as [post ->].
      exists EmptyString, post. reflexivity.
    + destruct (IH H) as (pre & post & ->).
      exists (String c pre), post. reflexivity.
Qed.

(** A string that does not begin with white space. *)
Lemma lstrip_head (s : string) :
  match Py.lstrip s with
  | EmptyString => True
  | String c _ => Py.isspace c = false
  end.
Proof.
  induction s as [|c r IH]; [exact I|].
  simpl. destruct (Py.isspace c) eqn:E; [exact IH|exact E].
Qed.

Lemma lstrip_fixed (c : ascii) (r : string) :
  Py.isspace c = false -> Py.lstrip (String c r) = String c r.
Proof. intros H. simpl. rewrite H. reflexivity. Qed.

Lemma rstrip_head (c : ascii) (r : string) :
  Py.isspace c = false -> exists r', Py.rstrip (String c r) = String c r'.
Proof.
  intros H. simpl. destruct (Py.rstrip r) as [|d r'].
  - rewrite H. eauto.
  - eauto.
Qed.

Lemma rstrip_idem (s : string) : Py.rstrip (Py.rstrip s) = Py.rstrip s.
Proof.
  induction s as [|c r IH]; [reflexivity|].
  simpl. destruct (Py.rstrip r) as [|d r'] eqn:E.
  - destruct (Py.isspace c) eqn:Hc; [reflexivity|].
    simpl. rewrite Hc. reflexivity.
  - cbn [Py.rstrip] in IH |- *. rewrite IH. reflexivity.
Qed.

Lemma strip_idem (s : string) : Py.strip (Py.strip s) = Py.strip s.
Proof.
  unfold Py.strip. pose proof (lstrip_head s) as H.
  destruct (Py.lstrip s) as [|c r]; [reflexivity|].
  destruct (rstrip_head c r H) as [r' E].
  rewrite E, (lstrip_fixed c r' H), <- E. apply rstrip_idem.
Qed.

(** ** Classifier and router *)

Lemma any_false {A} (f : A -> bool) (l : list A) :
  (forall x, x ∈ l -> f x = false) -> Py.any f l = false.
Proof.
  induction l as [|y l IH]; intros H; [reflexivity|].
  simpl. rewrite (H y) by apply list_elem_of_here.
  apply IH. intros x Hx. apply H. by apply list_elem_of_further.
Qed.

Lemma first_match_split {A} (f : A -> bool) (l1 l2 : list A) (g : A) :
  (forall x, x ∈ l1 -> f x = false) -> f g = true ->
  Py.any f (l1 ++ g :: l2) = true
  /\ Py.first_match f (l1 ++ g :: l2) = Some g.
Proof.
  induction l1 as [|y l1 IH]; intros H Hg; simpl.
  - rewrite Hg. auto.
  - rewrite (H y) by apply list_elem_of_here. simpl.
    apply IH; [|exact Hg]. intros x Hx. apply H. by apply list_elem_of_further.
Qed.

Lemma not_prefix_startswith (x content : string) :
  ¬ is_prefix x content -> Py.startswith content x = false.
Proof.
  intros H. destruct (Py.startswith content x) eqn:E; [|reflexivity].
  exfalso. apply H. by apply startswith_inv.
Qed.

Lemma handle_rx_directed (v : string) (b : bot) :
  handle_js8call_message (rx_directed v) b =
  if (length (Py.split ":" v) <? 2)%nat
  then log WARNING ("Invalid directed message format: " ++ v) b
  else check_and_forward (Py.strip (hd EmptyString (Py.split ":" v)))
         (Py.strip (Py.join ":" (tl (Py.split ":" v)))) b.
Proof. reflexivity. Qed.

Lemma split_with_colon (a c : string) :
  Py.contains ":" a = false ->
  Py.split ":" (a ++ ":" ++ c) = a :: Py.split ":" c.
Proof.
  intros H. change (a ++ ":" ++ c) with (a ++ String ":" c).
  unfold Py.split at 1. rewrite (split_fields_app _ _ _ H). reflexivity.
Qed.

Lemma split_length (sep : ascii) (c : string) :
  (1 <= length (Py.split sep c))%nat.
Proof. unfold Py.split. destruct (Py.split_fields sep c). simpl. lia. Qed.

Lemma handle_colon (a c : string) (b : bot) :
  Py.contains ":" a = false ->
  handle_js8call_message (rx_directed (a ++ ":" ++ c)) b
  = check_and_forward (Py.strip a) (Py.strip c) b.
Proof.
  intros H. rewrite handle_rx_directed, (split_with_colon _ _ H).
  pose proof (split_length ":" c) as Hlen.
  destruct (Nat.ltb_spec (length (a :: Py.split ":" c)) 2) as [Hlt|_].
  - simpl in Hlt. lia.
  - cbn [hd tl]. rewrite (join_split ":" c). reflexivity.
Qed.

(** C1. Only [RX.DIRECTED] events are acted upon; a value without [:] is
    dropped with a warning; otherwise the sender is what stands before the
    first [:], trimmed, and the content all that follows it, trimmed. *)
Theorem handle_parses_directed (b : bot) :
  (forall ty value,
     jval_eq ty "RX.DIRECTED" = false ->
     handle_js8call_message (JObject (Some ty) value) b = b)
  /\ (forall v,
        Py.contains ":" v = false ->
        handle_js8call_message (rx_directed v) b
        = log WARNING ("Invalid directed message format: " ++ v) b)
  /\ (forall a c,
        Py.contains ":" a = false ->
        handle_js8call_message (rx_directed (a ++ ":" ++ c)) b
        = check_and_forward (Py.strip a) (Py.strip c) b).
Proof.
  split; [|split].
  - intros ty value H. simpl. rewrite H. reflexivity.
  - intros v H. rewrite handle_rx_directed.
    unfold Py.split. rewrite (split_fields_no_sep _ _ H). reflexivity.
  - intros a c H. by apply handle_colon.
Qed.

(** C2. Scope resolution of a message that passed the blocked-word check:
    the first ordinary group, in catalog order, that is a plain prefix of
    the content; else the first such urgent group; else direct with the
    whole content. *)
Theorem scope_resolution_priority (sender content : string) (b : bot) :
  has_blocked_word content b = false ->
  (forall (l1 : list string) g l2 rest,
     js8groups b = (l1 ++ g :: l2)%list ->
     (forall x, x ∈ l1 -> ¬ is_prefix x content) ->
     content = g ++ rest ->
     check_and_forward sender content b
     = forward_group_message sender g (Py.strip rest) b)
  /\ (forall (l1 : list string) g l2 rest,
        (forall x, x ∈ js8groups b -> ¬ is_prefix x content) ->
        js8urgent b = (l1 ++ g :: l2)%list ->
        (forall x, x ∈ l1 -> ¬ is_prefix x content) ->
        content = g ++ rest ->
        check_and_forward sender content b
        = forward_urgent_message sender g (Py.strip rest) b)
  /\ ((forall x, x ∈ js8groups b -> ¬ is_prefix x content) ->
      (forall x, x ∈ js8urgent b -> ¬ is_prefix x content) ->
      check_and_forward sender content b
      = forward_direct_message sender content b).
Proof.
  intros Hok. unfold check_and_forward. rewrite Hok.
  unfold forward_by_scope. split; [|split].
  - intros l1 g l2 rest Hcat Hnone ->.
    destruct (first_match_split (Py.startswith (g ++ rest)) l1 l2 g)
      as [Hany Hfirst].
    + intros x Hx. apply not_prefix_startswith. by apply Hnone.
    + apply startswith_app.
    + rewrite Hcat, Hany, Hfirst, slice_from_app. reflexivity.
  - intros l1 g l2 rest Hgroups Hcat Hnone ->.
    rewrite (any_false _ (js8groups b)).
    2:{ intros x Hx. apply not_prefix_startswith. by apply Hgroups. }
    destruct (first_match_split (Py.startswith (g ++ rest)) l1 l2 g)
      as [Hany Hfirst].
    + intros x Hx. apply not_prefix_startswith. by apply Hnone.
    + apply startswith_app.
    + rewrite Hcat, Hany, Hfirst, slice_from_app. reflexivity.
  - intros Hgroups Hurgent.
    rewrite (any_false _ (js8groups b)), (any_false _ (js8urgent b)).
    + reflexivity.
    + intros x Hx. apply not_prefix_startswith. by apply Hurgent.
    + intros x Hx. apply not_prefix_startswith. by apply Hgroups.
Qed.

(** ** The [defaultdict] reads *)

Ltac proj_simpl :=
  cbn [config_of js8groups js8urgent blocked_words distro_list user_groups
       muted_users storage storage_up sent db logger js8call_connected trace
       set_catalogs set_registry set_user_groups set_muted_users set_storage
       set_storage_up set_sent insert_message log set_connected emit send]
    in *.

Lemma dd_getitem_eq (d : gmap string (gset string)) (k : string) :
  dd_getitem d k = (dd_get d k, <[k := dd_get d k]> d).
Proof.
  unfold dd_getitem, dd_get. destruct (d !! k) as [v|] eqn:E; simpl.
  - by rewrite insert_id.
  - reflexivity.
Qed.

Lemma dd_get_touch (d : gmap string (gset string)) (k u : string) :
  dd_get (<[k := dd_get d k]> d) u = dd_get d u.
Proof.
  unfold dd_get at 1 3. destruct (decide (k = u)) as [->|Hne].
  - by rewrite lookup_insert_eq.
  - by rewrite lookup_insert_ne.
Qed.

Lemma dd_get_absent (d : gmap string (gset string)) (u : string) :
  d !! u = None -> dd_get d u = ∅.
Proof. unfold dd_get. by intros ->. Qed.

(** ** Fan-out *)

Lemma dom_touch (d : gmap string (gset string)) (x : string) :
  dom (<[x := dd_get d x]> d) ⊆ dom d ∪ {[x]}.
Proof. rewrite dom_insert. set_solver. Qed.

Lemma select_step (group : option string)
    (ug mu : gmap string (gset string)) (fs : list string) (x : string) :
  exists ug1 mu1 us0,
    select_user group (ug, mu, fs) x = (ug1, mu1, (fs ++ us0)%list)
    /\ (forall u, dd_get ug1 u = dd_get ug u)
    /\ (forall u, dd_get mu1 u = dd_get mu u)
    /\ dom ug1 ⊆ dom ug ∪ {[x]}
    /\ dom mu1 ⊆ dom mu ∪ {[x]}
    /\ ((us0 = [x] /\ selected group ug mu x)
        \/ (us0 = [] /\ ¬ selected group ug mu x)).
Proof.
  unfold select_user, selected. destruct group as [g|].
  - rewrite dd_getitem_eq. destruct (decide (g ∈ dd_get ug x)) as [Hin|Hin].
    + rewrite dd_getitem_eq.
      destruct (decide (g ∉ dd_get mu x)) as [Hm|Hm].
      * exists (<[x:=dd_get ug x]> ug), (<[x:=dd_get mu x]> mu), [x].
        split_and!; auto using dd_get_touch, dom_touch.
      * exists (<[x:=dd_get ug x]> ug), (<[x:=dd_get mu x]> mu), [].
        rewrite app_nil_r.
        split_and!; auto using dd_get_touch, dom_touch. right. tauto.
    + exists (<[x:=dd_get ug x]> ug), mu, []. rewrite app_nil_r.
      split_and!; auto using dd_get_touch, dom_touch.
      * set_solver.
      * right. tauto.
  - exists ug, mu, [x]. split_and!; auto; set_solver.
Qed.

Lemma select_fold (group : option string) (l : list string) :
  forall ug mu fs,
  exists ug' mu' us,
    foldl (select_user group) (ug, mu, fs) l = (ug', mu', (fs ++ us)%list)
    /\ (forall u, dd_get ug' u = dd_get ug u)
    /\ (forall u, dd_get mu' u = dd_get mu u)
    /\ dom ug' ⊆ dom ug ∪ list_to_set l
    /\ dom mu' ⊆ dom mu ∪ list_to_set l
    /\ (forall u, u ∈ us <-> u ∈ l /\ selected group ug mu u)
    /\ (NoDup l -> NoDup us).
Proof.
  induction l as [|x l IH]; intros ug mu fs.
  - exists ug, mu, []. rewrite app_nil_r. simpl.
    split_and!; auto; try apply union_subseteq_l.
    intros u. split; [intros H; by apply elem_of_nil in H|].
    intros [H _]. by apply elem_of_nil in H.
  - cbn [foldl].
    destruct (select_step group ug mu fs x)
      as (ug1 & mu1 & us0 & -> & Hug1 & Hmu1 & Hd1 & Hd2 & Hus0).
    destruct (IH ug1 mu1 (fs ++ us0)%list)
      as (ug' & mu' & us & -> & Hug' & Hmu' & Hd1' & Hd2' & Hus & Hnd).
    exists ug', mu', (us0 ++ us)%list. rewrite app_assoc.
    split; [reflexivity|]. split; [intros u; by rewrite Hug', Hug1|].
    split; [intros u; by rewrite Hmu', Hmu1|].
    split; [clear -Hd1 Hd1'; set_solver|].
    split; [clear -Hd2 Hd2'; set_solver|].
    assert (Hsel : forall u, selected group ug1 mu1 u <-> selected group ug mu u).
    { intros u. unfold selected. destruct group; [|done].
      by rewrite Hug1, Hmu1. }
    split.
    + intros u. rewrite elem_of_app, Hus, Hsel, elem_of_cons.
      destruct Hus0 as [[-> Hx]|[-> Hx]].
      * rewrite list_elem_of_singleton. split.
        -- intros [->|[? ?]]; auto.
        -- intros [[->|?] ?]; auto.
      * split.
        -- intros [H|[? ?]]; [by apply elem_of_nil in H|auto].
        -- intros [[->|?] ?]; [contradiction|auto].
    + intros Hnodup. apply NoDup_cons in Hnodup as [Hx Hl].
      destruct Hus0 as [[-> _]|[-> _]]; [|by apply Hnd].
      simpl. apply NoDup_cons. split; [|by apply Hnd].
      intros Hin. apply Hus in Hin as [Hin _]. done.
Qed.

Lemma send_fold (message : string) (us : list string) :
  forall b0,
    foldl (λ b' user, send user message b') b0 us
    = set_sent (sent b0 ++ deliveries message us) b0.
Proof.
  induction us as [|x us IH]; intros b0.
  - simpl. rewrite app_nil_r. by destruct b0.
  - cbn [foldl]. rewrite IH. unfold send. proj_simpl.
    unfold deliveries. cbn [map]. rewrite <- app_assoc. reflexivity.
Qed.

(** What one call of [_send_to_users] does: one delivery per eligible
    user, each of them once, and reads of the two maps that leave their
    contents as they were. *)
Lemma send_to_users_spec (message : string) (group : option string)
    (b : bot) :
  exists ug' mu' us,
    _send_to_users message group b
    = set_sent (sent b ++ deliveries message us)
        (set_registry (distro_list b) ug' mu' b)
    /\ (forall u, dd_get ug' u = dd_get (user_groups b) u)
    /\ (forall u, dd_get mu' u = dd_get (muted_users b) u)
    /\ dom ug' ⊆ dom (user_groups b) ∪ distro_list b
    /\ dom mu' ⊆ dom (muted_users b) ∪ distro_list b
    /\ NoDup us
    /\ (forall u, u ∈ us <-> eligible group b u).
Proof.
  unfold _send_to_users.
  destruct (select_fold group (elements (distro_list b))
              (user_groups b) (muted_users b) [])
    as (ug' & mu' & us & -> & Hug & Hmu & Hd1 & Hd2 & Hus & Hnd).
  rewrite list_to_set_elements_L in Hd1, Hd2.
  exists ug', mu', us. rewrite send_fold. proj_simpl.
  split_and!; auto.
  - apply Hnd, NoDup_elements.
  - intros u. rewrite Hus, elem_of_elements. reflexivity.
Qed.

Lemma send_to_users_fields (message : string) (group : option string)
    (b : bot) :
  let b' := _send_to_users message group b in
  db b' = db b /\ logger b' = logger b /\ storage b' = storage b
  /\ storage_up b' = storage_up b /\ trace b' = trace b
  /\ js8call_connected b' = js8call_connected b
  /\ js8groups b' = js8groups b /\ js8urgent b' = js8urgent b
  /\ blocked_words b' = blocked_words b /\ config_of b' = config_of b.
Proof.
  destruct (send_to_users_spec message group b) as (ug' & mu' & us & E & _).
  cbv zeta. rewrite E. proj_simpl. split_and!; reflexivity.
Qed.

(** C3. A direct message goes to exactly the users of the distribution
    list, a message to group [g] to exactly those of them whose groups
    contain [g] and whose mutes do not; the recipients are computed from
    the registry as it is at each dispatch, so that after a change of the
    mutes the next dispatch follows the new mutes. *)
Theorem recipients_follow_current_registry (message : string)
    (group : option string) (b : bot) :
  exists us,
    sent (_send_to_users message group b)
    = (sent b ++ deliveries message us)%list
    /\ NoDup us
    /\ (forall u, u ∈ us <-> eligible group b u)
    /\ same_contents b (_send_to_users message group b)
    /\ forall mu message2,
         exists us2,
           sent (_send_to_users message2 group
                   (set_muted_users mu (_send_to_users message group b)))
           = (sent (_send_to_users message group b)
              ++ deliveries message2 us2)%list
           /\ NoDup us2
           /\ (forall u, u ∈ us2 <-> eligible group (set_muted_users mu b) u).
Proof.
  destruct (send_to_users_spec message group b)
    as (ug' & mu' & us & E & Hug & Hmu & _ & _ & Hnd & Hus).
  exists us. rewrite E. proj_simpl. split_and!; auto.
  - unfold same_contents. proj_simpl. auto.
  - intros mu message2.
    destruct (send_to_users_spec message2 group
                (set_muted_users mu
                   (set_sent (sent b ++ deliveries message us)
                      (set_registry (distro_list b) ug' mu' b))))
      as (ug2 & mu2 & us2 & E2 & _ & _ & _ & _ & Hnd2 & Hus2).
    exists us2. rewrite E2. proj_simpl. split_and!; auto.
    intros u. rewrite Hus2. unfold eligible, selected. proj_simpl.
    destruct group; [|done]. by rewrite Hug.
Qed.

Lemma forward_direct_spec (sender message : string) (b : bot) :
  exists us,
    sent (forward_direct_message sender message b)
    = (sent b ++ deliveries
                   ("Direct message from " ++ sender ++ ": " ++ message)%string
                   us)%list
    /\ NoDup us /\ (forall u, u ∈ us <-> eligible None b u)
    /\ db (forward_direct_message sender message b)
       = (db b ++ [(sender, "DIRECT", message)])%list.
Proof.
  unfold forward_direct_message.
  destruct (send_to_users_spec
              ("Direct message from " ++ sender ++ ": " ++ message) None b)
    as (ug' & mu' & us & E & _ & _ & _ & _ & Hnd & Hus).
  exists us. rewrite E. proj_simpl. auto.
Qed.

Lemma forward_group_spec (sender group message : string) (b : bot) :
  exists us,
    sent (forward_group_message sender group message b)
    = (sent b ++ deliveries
                   ("Group message from " ++ sender ++ " to " ++ group
                    ++ ": " ++ message)%string us)%list
    /\ NoDup us /\ (forall u, u ∈ us <-> eligible (Some group) b u)
    /\ db (forward_group_message sender group message b)
       = (db b ++ [(sender, group, message)])%list.
Proof.
  unfold forward_group_message.
  destruct (send_to_users_spec
              ("Group message from " ++ sender ++ " to " ++ group
               ++ ": " ++ message) (Some group) b)
    as (ug' & mu' & us & E & _ & _ & _ & _ & Hnd & Hus).
  exists us. rewrite E. proj_simpl. auto.
Qed.

Lemma forward_urgent_spec (sender group message : string) (b : bot) :
  exists us,
    sent (forward_urgent_message sender group message b)
    = (sent b ++ deliveries
                   ("URGENT message from " ++ sender ++ " to " ++ group
                    ++ ": " ++ message)%string us)%list
    /\ NoDup us /\ (forall u, u ∈ us <-> eligible (Some group) b u)
    /\ db (forward_urgent_message sender group message b)
       = (db b ++ [(sender, group, message)])%list.
Proof.
  unfold forward_urgent_message.
  destruct (send_to_users_spec
              ("URGENT message from " ++ sender ++ " to " ++ group
               ++ ": " ++ message) (Some group) b)
    as (ug' & mu' & us & E & _ & _ & _ & _ & Hnd & Hus).
  exists us. rewrite E. proj_simpl. auto.
Qed.

(** C5. Every dispatch writes exactly one history record, labelled
    [DIRECT] or with the group name, after one delivery attempt per
    eligible recipient; this holds whatever the outcome [deliver] gives to
    each attempt, and a failed attempt stands in [sent] beside the others. *)
Theorem one_history_record_per_dispatch (sender group message : string)
    (b : bot) :
  (exists us,
     sent (forward_direct_message sender message b)
     = (sent b ++ deliveries
                    ("Direct message from " ++ sender ++ ": " ++ message)%string
                    us)%list
     /\ NoDup us /\ (forall u, u ∈ us <-> eligible None b u)
     /\ db (forward_direct_message sender message b)
        = (db b ++ [(sender, "DIRECT", message)])%list)
  /\ (exists us,
        sent (forward_group_message sender group message b)
        = (sent b ++ deliveries
                       ("Group message from " ++ sender ++ " to " ++ group
                        ++ ": " ++ message)%string us)%list
        /\ NoDup us /\ (forall u, u ∈ us <-> eligible (Some group) b u)
        /\ db (forward_group_message sender group message b)
           = (db b ++ [(sender, group, message)])%list)
  /\ (exists us,
        sent (forward_urgent_message sender group message b)
        = (sent b ++ deliveries
                       ("URGENT message from " ++ sender ++ " to " ++ group
                        ++ ": " ++ message)%string us)%list
        /\ NoDup us /\ (forall u, u ∈ us <-> eligible (Some group) b u)
        /\ db (forward_urgent_message sender group message b)
           = (db b ++ [(sender, group, message)])%list).
Proof.
  split; [apply forward_direct_spec|].
  split; [apply forward_group_spec|apply forward_urgent_spec].
Qed.

(** ** Subscription store *)

Lemma save_step (ug mu : gmap string (gset string))
    (data : gmap string user_data) (x : string) :
  save_user (ug, mu, data) x
  = (<[x := dd_get ug x]> ug, <[x := dd_get mu x]> mu,
     <[x := snapshot ug mu x]> data).
Proof. unfold save_user. rewrite !dd_getitem_eq. reflexivity. Qed.

Lemma save_fold (l : list string) :
  forall ug mu data,
  exists ug' mu' data',
    foldl save_user (ug, mu, data) l = (ug', mu', data')
    /\ (forall u, ug' !! u
                  = if decide (u ∈ l) then Some (dd_get ug u) else ug !! u)
    /\ (forall u, mu' !! u
                  = if decide (u ∈ l) then Some (dd_get mu u) else mu !! u)
    /\ (forall u, data' !! u
                  = if decide (u ∈ l) then Some (snapshot ug mu u)
                    else data !! u).
Proof.
  induction l as [|x l IH]; intros ug mu data.
  - exists ug, mu, data. split_and!; [reflexivity|..]; intros u;
      destruct (decide (u ∈ [])) as [H|_]; try reflexivity;
      by apply elem_of_nil in H.
  - cbn [foldl]. rewrite save_step.
    destruct (IH (<[x := dd_get ug x]> ug) (<[x := dd_get mu x]> mu)
                 (<[x := snapshot ug mu x]> data))
      as (ug' & mu' & data' & -> & Hug & Hmu & Hdata).
    exists ug', mu', data'. split_and!; [reflexivity|..]; intros u.
    + rewrite Hug, dd_get_touch.
      destruct (decide (u ∈ l)) as [Hin|Hin].
      * rewrite decide_True by (by apply list_elem_of_further). reflexivity.
      * destruct (decide (x = u)) as [->|Hne].
        -- rewrite decide_True by apply list_elem_of_here.
           by rewrite lookup_insert_eq.
        -- rewrite decide_False by (rewrite elem_of_cons; naive_solver).
           by rewrite lookup_insert_ne.
    + rewrite Hmu, dd_get_touch.
      destruct (decide (u ∈ l)) as [Hin|Hin].
      * rewrite decide_True by (by apply list_elem_of_further). reflexivity.
      * destruct (decide (x = u)) as [->|Hne].
        -- rewrite decide_True by apply list_elem_of_here.
           by rewrite lookup_insert_eq.
        -- rewrite decide_False by (rewrite elem_of_cons; naive_solver).
           by rewrite lookup_insert_ne.
    + rewrite Hdata. unfold snapshot. rewrite !dd_get_touch.
      destruct (decide (u ∈ l)) as [Hin|Hin].
      * rewrite decide_True by (by apply list_elem_of_further). reflexivity.
      * destruct (decide (x = u)) as [->|Hne].
        -- rewrite decide_True by apply list_elem_of_here.
           by rewrite lookup_insert_eq.
        -- rewrite decide_False by (rewrite elem_of_cons; naive_solver).
           by rewrite lookup_insert_ne.
Qed.

(** What [save_state_to_storage] leaves: an entry in both maps for every
    user of the distribution list, and, when the store answers, one
    snapshot per user of the list. *)
Lemma save_spec (b : bot) :
  let b' := save_state_to_storage b in
  distro_list b' = distro_list b
  /\ (forall u, user_groups b' !! u
                = if decide (u ∈ distro_list b)
                  then Some (dd_get (user_groups b) u)
                  else user_groups b !! u)
  /\ (forall u, muted_users b' !! u
                = if decide (u ∈ distro_list b)
                  then Some (dd_get (muted_users b) u)
                  else muted_users b !! u)
  /\ (storage_up b = true ->
      exists data,
        storage b' = Some data
        /\ forall u, data !! u
                     = if decide (u ∈ distro_list b)
                       then Some (snapshot (user_groups b) (muted_users b) u)
                       else None)
  /\ sent b' = sent b /\ db b' = db b /\ storage_up b' = storage_up b
  /\ trace b' = trace b /\ js8call_connected b' = js8call_connected b
  /\ config_of b' = config_of b /\ js8groups b' = js8groups b
  /\ js8urgent b' = js8urgent b /\ blocked_words b' = blocked_words b.
Proof.
  cbv zeta. unfold save_state_to_storage.
  destruct (save_fold (elements (distro_list b)) (user_groups b)
              (muted_users b) ∅)
    as (ug' & mu' & data' & -> & Hug & Hmu & Hdata).
  assert (Hdec : forall (A : Type) (u : string) (p q : A),
             (if decide (u ∈ elements (distro_list b)) then p else q)
             = (if decide (u ∈ distro_list b) then p else q)).
  { intros A u p q. destruct (decide (u ∈ distro_list b)) as [H|H].
    - rewrite decide_True by (by apply elem_of_elements). reflexivity.
    - rewrite decide_False by (by rewrite elem_of_elements). reflexivity. }
  destruct (storage_up b) eqn:Hup; proj_simpl; split_and!; try reflexivity;
    try assumption; try (intros u; rewrite <- Hdec; auto); try discriminate.
  intros _. exists data'. split; [reflexivity|].
  intros u. rewrite <- Hdec, Hdata. reflexivity.
Qed.

Lemma load_fold (l : list (string * user_data)) :
  forall b, NoDup l.*1 ->
    let b' := foldl load_user b l in
    let data : gmap string user_data := list_to_map l in
    (forall u, u ∈ distro_list b' <-> is_Some (data !! u) \/ u ∈ distro_list b)
    /\ (forall u, user_groups b' !! u
                  = match data !! u with
                    | Some ud => Some (list_to_set (default [] (groups ud)))
                    | None => user_groups b !! u
                    end)
    /\ (forall u, muted_users b' !! u
                  = match data !! u with
                    | Some ud =>
                        Some (list_to_set (default [] (muted_groups ud)))
                    | None => muted_users b !! u
                    end).
Proof.
  induction l as [|[k ud] l IH]; intros b Hnd; cbv zeta.
  - simpl. split_and!; intros u; rewrite ?lookup_empty; try reflexivity.
    split; [auto|]. intros [[? H]|H]; [discriminate|done].
  - cbn [foldl]. rewrite fmap_cons, NoDup_cons in Hnd. destruct Hnd as [Hk Hnd].
    destruct (IH (load_user b (k, ud)) Hnd) as (Hd & Hug & Hmu).
    assert (Hk' : (list_to_map l : gmap string user_data) !! k = None)
      by (by apply not_elem_of_list_to_map_1).
    clear Hk. rename Hk' into Hk.
    rewrite list_to_map_cons.
    split_and!; intros u.
    + rewrite Hd. unfold load_user. proj_simpl.
      rewrite elem_of_union, elem_of_singleton.
      destruct (decide (k = u)) as [->|Hne].
      * rewrite lookup_insert_eq. split; [eauto|]. intros _. right. by left.
      * rewrite lookup_insert_ne by done. split.
        -- intros [?|[?|?]]; auto. congruence.
        -- intros [?|?]; auto.
    + rewrite Hug. unfold load_user. proj_simpl.
      destruct (decide (k = u)) as [->|Hne].
      * by rewrite Hk, !lookup_insert_eq.
      * by rewrite !lookup_insert_ne.
    + rewrite Hmu. unfold load_user. proj_simpl.
      destruct (decide (k = u)) as [->|Hne].
      * by rewrite Hk, !lookup_insert_eq.
      * by rewrite !lookup_insert_ne.
Qed.

(** What [load_state_from_storage] leaves when the store answers. *)
Lemma load_spec (b : bot) :
  storage_up b = true ->
  let b' := load_state_from_storage b in
  let data := default ∅ (storage b) in
  (forall u, u ∈ distro_list b' <-> is_Some (data !! u) \/ u ∈ distro_list b)
  /\ (forall u, user_groups b' !! u
                = match data !! u with
                  | Some ud => Some (list_to_set (default [] (groups ud)))
                  | None => user_groups b !! u
                  end)
  /\ (forall u, muted_users b' !! u
                = match data !! u with
                  | Some ud =>
                      Some (list_to_set (default [] (muted_groups ud)))
                  | None => muted_users b !! u
                  end).
Proof.
  intros Hup. cbv zeta. unfold load_state_from_storage. rewrite Hup.
  set (data := default ∅ (storage b)).
  assert (E : (if decide (data = ∅) then b
               else foldl load_user b (map_to_list data))
              = foldl load_user b (map_to_list data)).
  { destruct (decide (data = ∅)) as [->|_]; [|reflexivity].
    by rewrite map_to_list_empty. }
  rewrite E. proj_simpl.
  pose proof (load_fold (map_to_list data) b (NoDup_fst_map_to_list data))
    as H.
  cbv zeta in H. rewrite list_to_map_to_list in H. exact H.
Qed.

(** ** The registry invariant *)

Lemma registry_inv_absent (b : bot) (u : string) :
  registry_inv b -> u ∉ distro_list b ->
  user_groups b !! u = None /\ muted_users b !! u = None.
Proof.
  intros [H1 H2] Hu. split; apply not_elem_of_dom; set_solver.
Qed.

Lemma routing_step_refl (b : bot) : routing_step b b.
Proof. unfold routing_step. split_and!; try reflexivity; set_solver. Qed.

Lemma routing_step_trans (b1 b2 b3 : bot) :
  routing_step b1 b2 -> routing_step b2 b3 -> routing_step b1 b3.
Proof.
  unfold routing_step.
  intros (Hd & Hu & Hm & Ht & Hc) (Hd' & Hu' & Hm' & Ht' & Hc').
  rewrite Hd in *. split_and!; try congruence; set_solver.
Qed.

Lemma routing_step_inv (b b' : bot) :
  routing_step b b' -> registry_inv b -> registry_inv b'.
Proof.
  unfold routing_step, registry_inv.
  intros (Hd & Hu & Hm & _) [H1 H2]. rewrite Hd. split; set_solver.
Qed.

Lemma routing_step_log (lv : level) (text : string) (b : bot) :
  routing_step b (log lv text b).
Proof. exact (routing_step_refl b). Qed.

Lemma send_to_users_step (message : string) (group : option string)
    (b : bot) :
  routing_step b (_send_to_users message group b).
Proof.
  destruct (send_to_users_spec message group b)
    as (ug' & mu' & us & -> & _ & _ & Hd1 & Hd2 & _).
  unfold routing_step. proj_simpl. split_and!; auto.
Qed.

Lemma forward_direct_step (sender message : string) (b : bot) :
  routing_step b (forward_direct_message sender message b).
Proof.
  unfold forward_direct_message.
  apply (send_to_users_step
           ("Direct message from " ++ sender ++ ": " ++ message) None b).
Qed.

Lemma forward_group_step (sender group message : string) (b : bot) :
  routing_step b (forward_group_message sender group message b).
Proof.
  unfold forward_group_message.
  apply (send_to_users_step
           ("Group message from " ++ sender ++ " to " ++ group ++ ": "
            ++ message) (Some group) b).
Qed.

Lemma forward_urgent_step (sender group message : string) (b : bot) :
  routing_step b (forward_urgent_message sender group message b).
Proof.
  unfold forward_urgent_message.
  apply (send_to_users_step
           ("URGENT message from " ++ sender ++ " to " ++ group ++ ": "
            ++ message) (Some group) b).
Qed.

Lemma check_and_forward_step (sender content : string) (b : bot) :
  routing_step b (check_and_forward sender content b).
Proof.
  unfold check_and_forward, forward_by_scope.
  destruct (has_blocked_word content b); [apply routing_step_log|].
  destruct (Py.any (Py.startswith content) (js8groups b)).
  - destruct (Py.first_match _ (js8groups b));
      [apply forward_group_step|apply routing_step_refl].
  - destruct (Py.any (Py.startswith content) (js8urgent b)).
    + destruct (Py.first_match _ (js8urgent b));
        [apply forward_urgent_step|apply routing_step_refl].
    + apply forward_direct_step.
Qed.

Lemma handle_step (data : decoded) (b : bot) :
  routing_step b (handle_js8call_message data b).
Proof.
  destruct data as [[ty|] value|]; try apply routing_step_log.
  unfold handle_js8call_message.
  destruct (jval_eq ty "RX.DIRECTED"); [|apply routing_step_refl].
  destruct value as [[v|]|]; try apply routing_step_log.
  destruct (length (Py.split ":" v) <? 2)%nat;
    [apply routing_step_log|apply check_and_forward_step].
Qed.

Lemma registry_inv_eq (b b' : bot) :
  distro_list b' = distro_list b -> user_groups b' = user_groups b ->
  muted_users b' = muted_users b -> registry_inv b -> registry_inv b'.
Proof. unfold registry_inv. by intros -> -> ->. Qed.

(** What holds across every handled event and every log record holds
    across the lines of a read, whether or not the [for] is left early. *)
Lemma process_lines_rel (R : bot -> bot -> Prop) :
  (forall b, R b b) ->
  (forall b1 b2 b3, R b1 b2 -> R b2 b3 -> R b1 b3) ->
  (forall data b, R b (handle_js8call_message data b)) ->
  (forall lv text b, R b (log lv text b)) ->
  forall lines b, R b (bot_of (process_lines b lines)).
Proof.
  intros Hrefl Htrans Hhandle Hlog.
  induction lines as [|line lines IH]; intros b; [apply Hrefl|].
  cbn [process_lines]. unfold process_line.
  destruct (decide (line = EmptyString)); [apply IH|].
  destruct (json_loads io line) as [data| |].
  - apply (Htrans b (handle_js8call_message data b)); [apply Hhandle|apply IH].
  - apply (Htrans b (log ERROR "Failed to parse JS8Call message" b));
      [apply Hlog|apply IH].
  - apply Hrefl.
Qed.

Lemma process_lines_step (lines : list string) (b : bot) :
  routing_step b (bot_of (process_lines b lines)).
Proof.
  apply (process_lines_rel routing_step).
  - apply routing_step_refl.
  - apply routing_step_trans.
  - apply handle_step.
  - intros lv text b0. apply routing_step_log.
Qed.

(** Whether the [for] is left early depends on the lines alone. *)
Lemma process_lines_raised (lines : list string) :
  forall b,
    match process_lines b lines with
    | Returned _ => existsb line_raises lines = false
    | Raised _ => existsb line_raises lines = true
    end.
Proof.
  induction lines as [|line lines IH]; intros b; [reflexivity|].
  cbn [process_lines existsb].
  assert (Hl : line_raises line
               = match process_line b line with
                 | Returned _ => false
                 | Raised _ => true
                 end).
  { unfold process_line, line_raises.
    destruct (decide (line = EmptyString)); [reflexivity|].
    destruct (json_loads io line); reflexivity. }
  rewrite Hl. destruct (process_line b line) as [b'|b'];
    [apply IH|reflexivity].
Qed.

Lemma process_messages_inv (r : recv_outcome) (b : bot) :
  registry_inv b -> registry_inv (process_js8call_messages r b).
Proof.
  intros H. unfold process_js8call_messages.
  destruct (js8call_connected b); [|exact H]. cbn [negb].
  destruct r as [data|]; [|exact H].
  destruct (decide (data = EmptyString)); [exact H|].
  pose proof (process_lines_step (Py.split "010" (Py.strip data))
                (emit EvRecv b)) as Hs.
  destruct (process_lines _ _) as [b'|b']; cbn [bot_of] in Hs;
    [|apply (registry_inv_eq b'); try reflexivity];
    (eapply routing_step_inv; [exact Hs|exact H]).
Qed.

Lemma iteration_inv (env : connect_outcome * recv_outcome) (b : bot) :
  registry_inv b -> registry_inv (js8call_iteration env b).
Proof.
  intros H. destruct env as [c r]. unfold js8call_iteration.
  destruct (js8call_connected b) eqn:Hc; cbn [negb].
  - rewrite Hc.
    apply (registry_inv_eq (process_js8call_messages r b)); try reflexivity.
    by apply process_messages_inv.
  - destruct c; cbn [connect_js8call]; proj_simpl.
    + eapply registry_inv_eq; [reflexivity..|].
      apply process_messages_inv.
      by apply (registry_inv_eq b).
    + by apply (registry_inv_eq b).
    + by apply (registry_inv_eq b).
Qed.

Lemma save_inv (b : bot) :
  registry_inv b -> registry_inv (save_state_to_storage b).
Proof.
  intros [H1 H2]. destruct (save_spec b) as (Hd & Hug & Hmu & _).
  unfold registry_inv. rewrite Hd. split; intros u Hu.
  - apply elem_of_dom in Hu. rewrite Hug in Hu.
    destruct (decide (u ∈ distro_list b)) as [|Hn]; [done|].
    apply H1. by apply elem_of_dom.
  - apply elem_of_dom in Hu. rewrite Hmu in Hu.
    destruct (decide (u ∈ distro_list b)) as [|Hn]; [done|].
    apply H2. by apply elem_of_dom.
Qed.

Lemma add_group_eq (user : string) (ug : gmap string (gset string))
    (group : string) :
  add_group user ug group = <[user := {[group]} ∪ dd_get ug user]> ug.
Proof. unfold add_group. rewrite dd_getitem_eq. apply insert_insert_eq. Qed.

Lemma add_group_fold (user : string) (dg : list string) :
  forall ug,
    (forall v, v ≠ user -> foldl (add_group user) ug dg !! v = ug !! v)
    /\ dd_get (foldl (add_group user) ug dg) user
       = list_to_set dg ∪ dd_get ug user.
Proof.
  induction dg as [|g dg IH]; intros ug.
  - simpl. split; [auto|]. set_solver.
  - cbn [foldl]. destruct (IH (add_group user ug g)) as [Hne Heq]. split.
    + intros v Hv. rewrite (Hne v Hv), add_group_eq.
      by rewrite lookup_insert_ne.
    + rewrite Heq, add_group_eq. unfold dd_get at 1.
      rewrite lookup_insert_eq. simpl. set_solver.
Qed.

Lemma join_fold (user : string) (P : string -> Prop)
    `{!forall g, Decision (P g)} (gs : list string) :
  forall ug v,
    v ≠ user ->
    foldl (λ ug' group,
             if decide (P group) then add_group user ug' group else ug')
          ug gs !! v = ug !! v.
Proof.
  induction gs as [|g gs IH]; intros ug v Hv; [reflexivity|].
  cbn [foldl]. rewrite (IH _ v Hv). destruct (decide (P g)); [|reflexivity].
  rewrite add_group_eq. by rewrite lookup_insert_ne.
Qed.

Lemma dom_frame (user : string) (ug ug' : gmap string (gset string))
    (d : gset string) :
  (forall v, v ≠ user -> ug' !! v = ug !! v) ->
  dom ug ⊆ d -> user ∈ d -> dom ug' ⊆ d.
Proof.
  intros Hne Hd Hu v Hv. destruct (decide (v = user)) as [->|Hv']; [done|].
  apply Hd. apply elem_of_dom. rewrite <- (Hne v Hv'). by apply elem_of_dom.
Qed.

Lemma add_inv (user : string) (b : bot) :
  registry_inv b -> registry_inv (add_to_distro_list user b).
Proof.
  intros [H1 H2]. unfold add_to_distro_list.
  destruct (decide (user ∉ distro_list b)) as [Hu|Hu]; [|by split].
  apply (save_inv (set_registry _ _ _ b)). split; proj_simpl.
  - apply (dom_frame user (user_groups b)).
    + apply add_group_fold.
    + set_solver.
    + set_solver.
  - set_solver.
Qed.

Lemma remove_inv (user : string) (b : bot) :
  registry_inv b -> registry_inv (remove_from_distro_list user b).
Proof.
  intros [H1 H2]. unfold remove_from_distro_list.
  destruct (decide (user ∈ distro_list b)) as [Hu|Hu]; [|by split].
  apply (save_inv (set_registry _ _ _ b)). split; proj_simpl;
    rewrite dom_delete_L; set_solver.
Qed.

Lemma join_inv (user : string) (gs : list string) (b : bot) :
  registry_inv b -> registry_inv (add_user_to_groups user gs b).
Proof.
  intros [H1 H2]. unfold add_user_to_groups.
  destruct (decide (user ∈ distro_list b)) as [Hu|Hu]; [|by split].
  apply (save_inv (set_user_groups _ b)). split; proj_simpl; [|done].
  apply (dom_frame user (user_groups b)); [|done|done].
  intros v Hv.
  by apply (join_fold user
              (λ group, group ∈ js8groups b ∨ group ∈ js8urgent b)).
Qed.

Lemma leave_inv (user group : string) (b : bot) :
  registry_inv b -> registry_inv (remove_user_from_group user group b).
Proof.
  intros [H1 H2]. unfold remove_user_from_group.
  destruct (decide (user ∈ distro_list b)) as [Hu|Hu]; [|by split].
  rewrite dd_getitem_eq.
  destruct (decide (group ∈ dd_get (user_groups b) user)) as [Hg|Hg].
  - apply (save_inv (set_user_groups _ b)). split; proj_simpl; [|done].
    rewrite !dom_insert_L. set_solver.
  - split; proj_simpl; [|done]. rewrite dom_insert_L. set_solver.
Qed.

Lemma setup_inv (b : bot) : registry_inv (setup_state b).
Proof.
  unfold setup_state. destruct (storage_up b) eqn:Hup.
  - destruct (load_spec (set_registry ∅ ∅ ∅ b) Hup) as (Hd & Hug & Hmu).
    proj_simpl. split; intros u Hu; apply Hd; left; apply elem_of_dom in Hu.
    + rewrite Hug in Hu. destruct (default ∅ (storage b) !! u); [eauto|].
      rewrite lookup_empty in Hu. by destruct Hu.
    + rewrite Hmu in Hu. destruct (default ∅ (storage b) !! u); [eauto|].
      rewrite lookup_empty in Hu. by destruct Hu.
  - unfold load_state_from_storage. proj_simpl. rewrite Hup.
    split; proj_simpl; rewrite dom_empty_L; set_solver.
Qed.

Lemma reachable_inv (b : bot) : reachable b -> registry_inv b.
Proof.
  induction 1.
  - apply setup_inv.
  - by apply add_inv.
  - by apply remove_inv.
  - by apply join_inv.
  - by apply leave_inv.
  - eapply routing_step_inv; [apply handle_step|done].
  - by apply iteration_inv.
  - by apply (registry_inv_eq b).
Qed.

(** ** Join, leave and the round trip through the store *)

(** C6. Joining a user who is not in the distribution list puts the user in
    it with exactly the configured default groups; joining a user who is
    in it changes no registry state and answers that the user has joined
    already. *)
Theorem join_seeds_default_groups (user : string) (b : bot) :
  (reachable b -> user ∉ distro_list b ->
   user ∈ distro_list (add_to_distro_list user b)
   /\ user_groups (add_to_distro_list user b) !! user
      = Some (list_to_set (default_groups b)))
  /\ (user ∈ distro_list b ->
      same_registry b (add_to_distro_list user b)
      /\ storage (add_to_distro_list user b) = storage b
      /\ sent (add_to_distro_list user b)
         = (sent b
            ++ [(user, "You are already in the JS8Call message group.",
                 deliver io user
                   "You are already in the JS8Call message group.")])%list).
Proof.
  split.
  - intros Hreach Hu. apply reachable_inv in Hreach.
    destruct (registry_inv_absent b user Hreach Hu) as [Hnone _].
    unfold add_to_distro_list. rewrite decide_True by done.
    set (b1 := set_registry ({[user]} ∪ distro_list b)
                 (foldl (add_group user) (user_groups b) (default_groups b))
                 (muted_users b) b).
    destruct (save_spec b1) as (Hd & Hug & _). proj_simpl.
    rewrite Hd, Hug. subst b1. proj_simpl.
    split; [set_solver|].
    rewrite decide_True by set_solver. f_equal.
    destruct (add_group_fold user (default_groups b) (user_groups b))
      as [_ ->].
    rewrite (dd_get_absent _ _ Hnone). set_solver.
  - intros Hu. unfold add_to_distro_list, same_registry.
    rewrite decide_False by (intros H; done). by proj_simpl.
Qed.

(** C7. Leaving removes a user of the distribution list from the list,
    from the group memberships and from the mutes, all at once; for a user
    who is not in the list it changes no registry state and answers that
    the user has not joined, which is what a second leave does. *)
Theorem leave_removes_everywhere (user : string) (b : bot) :
  (user ∈ distro_list b ->
   (user ∉ distro_list (remove_from_distro_list user b))
   /\ user_groups (remove_from_distro_list user b) !! user = None
   /\ muted_users (remove_from_distro_list user b) !! user = None
   /\ remove_from_distro_list user (remove_from_distro_list user b)
      = send user "You are not in the JS8Call message group."
          (remove_from_distro_list user b))
  /\ (user ∉ distro_list b ->
      same_registry b (remove_from_distro_list user b)
      /\ storage (remove_from_distro_list user b) = storage b
      /\ sent (remove_from_distro_list user b)
         = (sent b
            ++ [(user, "You are not in the JS8Call message group.",
                 deliver io user
                   "You are not in the JS8Call message group.")])%list).
Proof.
  split.
  - intros Hu.
    assert (Hgone :
      (user ∉ distro_list (remove_from_distro_list user b))
      /\ user_groups (remove_from_distro_list user b) !! user = None
      /\ muted_users (remove_from_distro_list user b) !! user = None).
    { unfold remove_from_distro_list. rewrite decide_True by done.
      set (b1 := set_registry (distro_list b ∖ {[user]})
                   (delete user (user_groups b))
                   (delete user (muted_users b)) b).
      destruct (save_spec b1) as (Hd & Hug & Hmu & _). proj_simpl.
      rewrite Hd, Hug, Hmu. subst b1. proj_simpl.
      rewrite !decide_False by set_solver.
      rewrite !lookup_delete_eq. split; [set_solver|done]. }
    destruct Hgone as (Hd & Hug & Hmu). split_and!; try done.
    unfold remove_from_distro_list at 1. by rewrite decide_False.
  - intros Hu. unfold remove_from_distro_list, same_registry.
    rewrite decide_False by done. by proj_simpl.
Qed.

(** C8. Saving a reachable registry to a store that answers, and loading
    the store into a fresh, empty registry, gives back the distribution
    list, the group memberships and the mutes, whatever the order of the
    saved lists. *)
Theorem save_load_round_trip (b : bot) :
  reachable b -> storage_up b = true ->
  let saved := save_state_to_storage b in
  let fresh := setup_state saved in
  distro_list fresh = distro_list b
  /\ user_groups fresh = user_groups saved
  /\ muted_users fresh = muted_users saved
  /\ (forall u, dd_get (user_groups fresh) u = dd_get (user_groups b) u)
  /\ (forall u, dd_get (muted_users fresh) u = dd_get (muted_users b) u).
Proof.
  intros Hreach Hup. cbv zeta. apply reachable_inv in Hreach.
  destruct (save_spec b)
    as (Hd & Hug & Hmu & Hst & _ & _ & Hup' & _).
  destruct (Hst Hup) as (data & Hdata & Hlook).
  rewrite Hup in Hup'.
  unfold setup_state.
  destruct (load_spec (set_registry ∅ ∅ ∅ (save_state_to_storage b)) Hup')
    as (Ld & Lug & Lmu).
  proj_simpl. rewrite Hdata in Ld, Lug, Lmu. simpl in Ld, Lug, Lmu.
  assert (Eug : forall u,
    user_groups (load_state_from_storage
                   (set_registry ∅ ∅ ∅ (save_state_to_storage b))) !! u
    = user_groups (save_state_to_storage b) !! u).
  { intros u. rewrite Lug, Hug, Hlook.
    destruct (decide (u ∈ distro_list b)) as [Hin|Hout].
    - simpl. by rewrite list_to_set_elements_L.
    - rewrite lookup_empty.
      by destruct (registry_inv_absent b u Hreach Hout) as [-> _]. }
  assert (Emu : forall u,
    muted_users (load_state_from_storage
                   (set_registry ∅ ∅ ∅ (save_state_to_storage b))) !! u
    = muted_users (save_state_to_storage b) !! u).
  { intros u. rewrite Lmu, Hmu, Hlook.
    destruct (decide (u ∈ distro_list b)) as [Hin|Hout].
    - simpl. by rewrite list_to_set_elements_L.
    - rewrite lookup_empty.
      by destruct (registry_inv_absent b u Hreach Hout) as [_ ->]. }
  split_and!.
  - apply set_eq. intros u. rewrite Ld, Hlook.
    destruct (decide (u ∈ distro_list b)) as [Hin|Hout].
    + split; [done|eauto].
    + split; [|done]. intros [[? H]|H]; [discriminate|set_solver].
  - by apply map_eq.
  - by apply map_eq.
  - intros u. unfold dd_get. rewrite Eug, Hug.
    destruct (decide (u ∈ distro_list b)); reflexivity.
  - intros u. unfold dd_get. rewrite Emu, Hmu.
    destruct (decide (u ∈ distro_list b)); reflexivity.
Qed.

(** ** Radio link *)

Lemma process_connected (r : recv_outcome) (b : bot) :
  js8call_connected b = true ->
  trace (process_js8call_messages r b) = (trace b ++ [EvRecv])%list
  /\ js8call_connected (process_js8call_messages r b) = negb (read_breaks r).
Proof.
  intros Hc. unfold process_js8call_messages, read_breaks.
  rewrite Hc. cbn [negb].
  destruct r as [data|]; [|by proj_simpl].
  destruct (decide (data = EmptyString)) as [->|Hne].
  - by proj_simpl.
  - rewrite bool_decide_false by done. cbn [orb].
    pose proof (process_lines_step (Py.split "010" (Py.strip data))
                  (emit EvRecv b)) as (_ & _ & _ & Ht & Hcon).
    pose proof (process_lines_raised (Py.split "010" (Py.strip data))
                  (emit EvRecv b)) as Hr.
    destruct (process_lines _ _) as [b'|b']; cbn [bot_of] in Ht, Hcon;
      rewrite Hr; proj_simpl; rewrite Ht; [by rewrite Hcon|done].
Qed.

Lemma iteration_connected (c : connect_outcome) (r : recv_outcome) (b : bot) :
  js8call_connected b = true ->
  trace (js8call_iteration (c, r) b) = (trace b ++ [EvRecv; EvSleep 1])%list
  /\ js8call_connected (js8call_iteration (c, r) b) = negb (read_breaks r).
Proof.
  intros Hc. unfold js8call_iteration. rewrite Hc. cbn [negb]. rewrite Hc.
  destruct (process_connected r b Hc) as [Ht Hcon].
  proj_simpl. rewrite Ht, Hcon, <- app_assoc. by simpl.
Qed.

Lemma iteration_disconnected (c : connect_outcome) (r : recv_outcome)
    (b : bot) :
  js8call_connected b = false ->
  trace (js8call_iteration (c, r) b)
  = (trace b
     ++ EvConnect
        :: match c with
           | ConnectOk => [EvRecv; EvSleep 1]
           | ConnectRaises => [EvSleep 1]
           | SocketRaises => [EvSleep 5]
           end)%list.
Proof.
  intros Hc. unfold js8call_iteration. rewrite Hc. cbn [negb].
  destruct c; cbn [connect_js8call]; proj_simpl.
  - match goal with
    | |- context [process_js8call_messages r ?b1] =>
        destruct (process_connected r b1 eq_refl) as [Ht _]
    end.
    rewrite Ht. proj_simpl. rewrite <- !app_assoc. reflexivity.
  - rewrite <- !app_assoc. reflexivity.
  - rewrite <- !app_assoc. reflexivity.
Qed.



(** ** The empty catalog setting *)

(** C10. When the ordinary-group setting is absent or empty the catalog is
    the list with the empty string alone, and every parsed message that is
    not blocked is forwarded as a group message to the group named by the
    empty string, with its whole content as body. *)
Theorem empty_group_setting_catches_all (b : bot) :
  cfg_js8groups (config_of b) = None
  \/ cfg_js8groups (config_of b) = Some EmptyString ->
  js8groups (setup_js8call b) = [EmptyString]
  /\ forall b' a c,
       js8groups b' = js8groups (setup_js8call b) ->
       Py.contains ":" a = false ->
       has_blocked_word (Py.strip c) b' = false ->
       handle_js8call_message (rx_directed (a ++ ":" ++ c)) b'
       = forward_group_message (Py.strip a) EmptyString (Py.strip c) b'
       /\ db (handle_js8call_message (rx_directed (a ++ ":" ++ c)) b')
          = (db b' ++ [(Py.strip a, EmptyString, Py.strip c)])%list.
Proof.
  intros Hcfg.
  assert (Hcat : js8groups (setup_js8call b) = [EmptyString]).
  { unfold setup_js8call. proj_simpl. by destruct Hcfg as [-> | ->]. }
  split; [exact Hcat|].
  intros b' a c Hb' Ha Hok. rewrite Hcat in Hb'.
  assert (E : handle_js8call_message (rx_directed (a ++ ":" ++ c)) b'
              = forward_group_message (Py.strip a) EmptyString (Py.strip c) b').
  { rewrite (handle_colon _ _ _ Ha). unfold check_and_forward.
    rewrite Hok. unfold forward_by_scope. rewrite Hb'.
    cbn [Py.any existsb Py.first_match Py.startswith orb String.length
         Py.slice_from].
    by rewrite strip_idem. }
  split; [exact E|]. rewrite E.
  destruct (forward_group_spec (Py.strip a) EmptyString (Py.strip c) b')
    as (us & _ & _ & _ & Hdb).
  exact Hdb.
Qed.

(** ** Group membership operations *)

Lemma save_same_contents (b : bot) :
  same_contents b (save_state_to_storage b).
Proof.
  destruct (save_spec b) as (Hd & Hug & Hmu & _).
  split; [exact Hd|]. split; intros u; unfold dd_get.
  - rewrite Hug. by destruct (decide (u ∈ distro_list b)).
  - rewrite Hmu. by destruct (decide (u ∈ distro_list b)).
Qed.

Lemma save_store_down (b : bot) :
  storage_up b = false ->
  storage (save_state_to_storage b) = storage b
  /\ logger (save_state_to_storage b)
     = (logger b ++ [(ERROR, "Error saving state to storage")])%list.
Proof.
  intros Hup. unfold save_state_to_storage.
  destruct (foldl save_user _ _) as [[ug mu] data]. rewrite Hup.
  by proj_simpl.
Qed.

Lemma dd_get_add_group (user : string) (ug : gmap string (gset string))
    (group : string) :
  dd_get (add_group user ug group) user = {[group]} ∪ dd_get ug user.
Proof.
  rewrite add_group_eq. unfold dd_get at 1. by rewrite lookup_insert_eq.
Qed.

Lemma join_fold_user (user : string) (P : string -> Prop)
    `{!forall g, Decision (P g)} (gs : list string) :
  forall ug g,
    g ∈ dd_get
          (foldl (λ ug' group,
                    if decide (P group) then add_group user ug' group
                    else ug') ug gs) user
    <-> g ∈ dd_get ug user \/ (g ∈ gs /\ P g).
Proof.
  induction gs as [|g0 gs IH]; intros ug g.
  - simpl. split; [auto|].
    intros [Hq|[Hq _]]; [done|by apply elem_of_nil in Hq].
  - cbn [foldl]. rewrite IH, elem_of_cons.
    destruct (decide (P g0)) as [Hp|Hp].
    + rewrite dd_get_add_group, elem_of_union, elem_of_singleton.
      split.
      * intros [[->|Hq]|[H1 H2]]; auto.
      * intros [Hq|[[->|H1] H2]]; auto.
    + split.
      * intros [Hq|[H1 H2]]; auto.
      * intros [Hq|[[->|H1] H2]]; auto. contradiction.
Qed.

Lemma dd_get_lookup_eq (m m' : gmap string (gset string)) (u : string) :
  m' !! u = m !! u -> dd_get m' u = dd_get m u.
Proof. unfold dd_get. by intros ->. Qed.

(** X1. Joining groups adds to the user's groups exactly the requested
    names that stand in one of the two catalogs, and changes neither the
    distribution list nor any mute; a user outside the distribution list
    is told to join first, and nothing changes. *)
Theorem join_groups_adds_catalog_groups (user : string) (gs : list string)
    (b : bot) :
  (user ∈ distro_list b ->
   distro_list (add_user_to_groups user gs b) = distro_list b
   /\ (forall g,
         g ∈ dd_get (user_groups (add_user_to_groups user gs b)) user
         <-> g ∈ dd_get (user_groups b) user \/ (g ∈ gs /\ in_catalog b g))
   /\ (forall v,
         dd_get (muted_users (add_user_to_groups user gs b)) v
         = dd_get (muted_users b) v))
  /\ (user ∉ distro_list b ->
      same_registry b (add_user_to_groups user gs b)
      /\ storage (add_user_to_groups user gs b) = storage b
      /\ sent (add_user_to_groups user gs b)
         = (sent b
            ++ [(user,
                 "You need to join the JS8Call message group first. Use /add command.",
                 deliver io user
                   "You need to join the JS8Call message group first. Use /add command.")])%list).
Proof.
  split.
  - intros Hu. unfold add_user_to_groups. rewrite decide_True by done.
    set (b1 := set_user_groups _ b).
    destruct (save_same_contents b1) as (Hd & Hug & Hmu). proj_simpl.
    split; [exact Hd|]. split.
    + intros g. rewrite Hug. subst b1. proj_simpl.
      apply (join_fold_user user (in_catalog b)).
    + intros v. rewrite Hmu. by subst b1.
  - intros Hu. unfold add_user_to_groups, same_registry.
    rewrite decide_False by done. by proj_simpl.
Qed.

(** X2. Leaving a group removes that one group from the groups of a member
    and leaves the mutes as they are; when the user is outside the
    distribution list or is no member of the group, the contents of the
    registry and the store stay as they are and the user is told so. *)
Theorem leave_group_removes_one_group (user group : string) (b : bot) :
  (user ∈ distro_list b -> group ∈ dd_get (user_groups b) user ->
   distro_list (remove_user_from_group user group b) = distro_list b
   /\ dd_get (user_groups (remove_user_from_group user group b)) user
      = dd_get (user_groups b) user ∖ {[group]}
   /\ (forall v,
         dd_get (muted_users (remove_user_from_group user group b)) v
         = dd_get (muted_users b) v))
  /\ (user ∉ distro_list b \/ group ∉ dd_get (user_groups b) user ->
      same_contents b (remove_user_from_group user group b)
      /\ storage (remove_user_from_group user group b) = storage b
      /\ sent (remove_user_from_group user group b)
         = (sent b
            ++ [(user, ("You are not in the group: " ++ group)%string,
                 deliver io user
                   ("You are not in the group: " ++ group)%string)])%list).
Proof.
  split.
  - intros Hu Hg. unfold remove_user_from_group.
    rewrite decide_True by done. rewrite dd_getitem_eq.
    rewrite decide_True by done.
    set (b1 := set_user_groups _ b).
    destruct (save_same_contents b1) as (Hd & Hug & Hmu). proj_simpl.
    split; [exact Hd|]. split.
    + rewrite Hug. subst b1. proj_simpl. unfold dd_get at 1.
      by rewrite lookup_insert_eq.
    + intros v. rewrite Hmu. by subst b1.
  - intros Hno. unfold remove_user_from_group, same_contents.
    destruct (decide (user ∈ distro_list b)) as [Hu|Hu];
      [|by proj_simpl].
    rewrite dd_getitem_eq.
    destruct (decide (group ∈ dd_get (user_groups b) user)) as [Hg|Hg];
      [by destruct Hno|].
    proj_simpl. split_and!; try reflexivity.
    intros u. apply dd_get_touch.
Qed.

Lemma join_one_contents (user g : string) (b : bot) :
  user ∈ distro_list b ->
  let b' := add_user_to_groups user [g] b in
  distro_list b' = distro_list b
  /\ dd_get (user_groups b') user
     = (if decide (in_catalog b g) then {[g]} ∪ dd_get (user_groups b) user
        else dd_get (user_groups b) user)
  /\ (forall v, v ≠ user ->
        dd_get (user_groups b') v = dd_get (user_groups b) v)
  /\ (forall v, dd_get (muted_users b') v = dd_get (muted_users b) v).
Proof.
  intros Hu. cbv zeta. unfold add_user_to_groups.
  rewrite decide_True by done.
  set (b1 := set_user_groups _ b).
  destruct (save_same_contents b1) as (Hd & Hug & Hmu). proj_simpl.
  split; [exact Hd|]. split; [|split].
  - rewrite Hug. subst b1. proj_simpl. unfold in_catalog. cbn [foldl].
    destruct (decide (g ∈ js8groups b ∨ g ∈ js8urgent b));
      [apply dd_get_add_group|reflexivity].
  - intros v Hv. rewrite Hug. subst b1. proj_simpl.
    apply dd_get_lookup_eq.
    by apply (join_fold user (in_catalog b) [g]).
  - intros v. rewrite Hmu. by subst b1.
Qed.

Lemma leave_group_frame (user group v : string) (b : bot) :
  v ≠ user ->
  dd_get (user_groups (remove_user_from_group user group b)) v
  = dd_get (user_groups b) v.
Proof.
  intros Hv. unfold remove_user_from_group.
  destruct (decide (user ∈ distro_list b)) as [Hu|Hu]; [|by proj_simpl].
  rewrite dd_getitem_eq.
  destruct (decide (group ∈ dd_get (user_groups b) user)) as [Hg|Hg].
  - set (b1 := set_user_groups _ b).
    destruct (save_same_contents b1) as (_ & Hug & _). proj_simpl.
    rewrite Hug. subst b1. proj_simpl. apply dd_get_lookup_eq.
    by rewrite !lookup_insert_ne.
  - proj_simpl. apply dd_get_touch.
Qed.

(** X3. For a user of the distribution list, joining one catalog group the
    user is not yet in and leaving it again gives back the contents of
    the registry. *)
Theorem join_then_leave_group (user g : string) (b : bot) :
  user ∈ distro_list b -> in_catalog b g ->
  g ∉ dd_get (user_groups b) user ->
  same_contents b
    (remove_user_from_group user g (add_user_to_groups user [g] b)).
Proof.
  intros Hu Hcat Hg.
  destruct (join_one_contents user g b Hu) as (Hd & Hug & Hne & Hmu).
  rewrite decide_True in Hug by done.
  set (b2 := add_user_to_groups user [g] b) in *.
  assert (Hu2 : user ∈ distro_list b2) by (by rewrite Hd).
  assert (Hg2 : g ∈ dd_get (user_groups b2) user)
    by (rewrite Hug; set_solver).
  unfold same_contents. unfold remove_user_from_group at 1 2 3.
  rewrite decide_True by done. rewrite dd_getitem_eq.
  rewrite decide_True by done.
  set (b3 := set_user_groups _ b2).
  destruct (save_same_contents b3) as (Hd3 & Hug3 & Hmu3). proj_simpl.
  split; [by rewrite Hd3|]. split.
  - intros v. rewrite Hug3. subst b3. proj_simpl.
    destruct (decide (v = user)) as [->|Hv].
    + unfold dd_get at 1. rewrite lookup_insert_eq. simpl.
      rewrite Hug. clear -Hg. set_solver.
    + rewrite <- (Hne v Hv). apply dd_get_lookup_eq.
      by rewrite !lookup_insert_ne.
  - intros v. rewrite Hmu3. subst b3. proj_simpl. apply Hmu.
Qed.

(** ** One user at a time *)

Lemma add_frame (user v : string) (b : bot) :
  v ≠ user ->
  (v ∈ distro_list (add_to_distro_list user b) <-> v ∈ distro_list b)
  /\ dd_get (user_groups (add_to_distro_list user b)) v
     = dd_get (user_groups b) v
  /\ dd_get (muted_users (add_to_distro_list user b)) v
     = dd_get (muted_users b) v.
Proof.
  intros Hv. unfold add_to_distro_list.
  destruct (decide (user ∉ distro_list b)) as [Hu|Hu]; [|by proj_simpl].
  set (b1 := set_registry _ _ _ b).
  destruct (save_same_contents b1) as (Hd & Hug & Hmu). proj_simpl.
  rewrite Hd, Hug, Hmu. subst b1. proj_simpl. split_and!.
  - clear -Hv. set_solver.
  - apply dd_get_lookup_eq. by apply add_group_fold.
  - reflexivity.
Qed.

Lemma remove_frame (user v : string) (b : bot) :
  v ≠ user ->
  (v ∈ distro_list (remove_from_distro_list user b) <-> v ∈ distro_list b)
  /\ dd_get (user_groups (remove_from_distro_list user b)) v
     = dd_get (user_groups b) v
  /\ dd_get (muted_users (remove_from_distro_list user b)) v
     = dd_get (muted_users b) v.
Proof.
  intros Hv. unfold remove_from_distro_list.
  destruct (decide (user ∈ distro_list b)) as [Hu|Hu]; [|by proj_simpl].
  set (b1 := set_registry _ _ _ b).
  destruct (save_same_contents b1) as (Hd & Hug & Hmu). proj_simpl.
  rewrite Hd, Hug, Hmu. subst b1. proj_simpl. split_and!.
  - clear -Hv. set_solver.
  - apply dd_get_lookup_eq. by rewrite lookup_delete_ne.
  - apply dd_get_lookup_eq. by rewrite lookup_delete_ne.
Qed.

Lemma join_frame (user v : string) (gs : list string) (b : bot) :
  v ≠ user ->
  distro_list (add_user_to_groups user gs b) = distro_list b
  /\ dd_get (user_groups (add_user_to_groups user gs b)) v
     = dd_get (user_groups b) v
  /\ dd_get (muted_users (add_user_to_groups user gs b)) v
     = dd_get (muted_users b) v.
Proof.
  intros Hv. unfold add_user_to_groups.
  destruct (decide (user ∈ distro_list b)) as [Hu|Hu]; [|by proj_simpl].
  set (b1 := set_user_groups _ b).
  destruct (save_same_contents b1) as (Hd & Hug & Hmu). proj_simpl.
  rewrite Hd, Hug, Hmu. subst b1. proj_simpl. split_and!; try reflexivity.
  apply dd_get_lookup_eq. by apply (join_fold user (in_catalog b)).
Qed.

Lemma leave_group_others (user group : string) (b : bot) :
  distro_list (remove_user_from_group user group b) = distro_list b
  /\ forall v,
       dd_get (muted_users (remove_user_from_group user group b)) v
       = dd_get (muted_users b) v.
Proof.
  unfold remove_user_from_group.
  destruct (decide (user ∈ distro_list b)) as [Hu|Hu]; [|by proj_simpl].
  rewrite dd_getitem_eq.
  destruct (decide (group ∈ dd_get (user_groups b) user)) as [Hg|Hg];
    [|by proj_simpl].
  set (b1 := set_user_groups _ b).
  destruct (save_same_contents b1) as (Hd & _ & Hmu). proj_simpl.
  split; [exact Hd|]. intros v. rewrite Hmu. by subst b1.
Qed.

(** X4. No registry operation on one user changes what the registry holds
    for another user: membership of the distribution list, groups and
    mutes of every other user are as before. *)
Theorem other_users_untouched (user v : string) (gs : list string)
    (group : string) (b : bot) :
  v ≠ user ->
  ((v ∈ distro_list (add_to_distro_list user b) <-> v ∈ distro_list b)
   /\ dd_get (user_groups (add_to_distro_list user b)) v
      = dd_get (user_groups b) v
   /\ dd_get (muted_users (add_to_distro_list user b)) v
      = dd_get (muted_users b) v)
  /\ ((v ∈ distro_list (remove_from_distro_list user b) <-> v ∈ distro_list b)
      /\ dd_get (user_groups (remove_from_distro_list user b)) v
         = dd_get (user_groups b) v
      /\ dd_get (muted_users (remove_from_distro_list user b)) v
         = dd_get (muted_users b) v)
  /\ (distro_list (add_user_to_groups user gs b) = distro_list b
      /\ dd_get (user_groups (add_user_to_groups user gs b)) v
         = dd_get (user_groups b) v
      /\ dd_get (muted_users (add_user_to_groups user gs b)) v
         = dd_get (muted_users b) v)
  /\ (distro_list (remove_user_from_group user group b) = distro_list b
      /\ dd_get (user_groups (remove_user_from_group user group b)) v
         = dd_get (user_groups b) v
      /\ dd_get (muted_users (remove_user_from_group user group b)) v
         = dd_get (muted_users b) v).
Proof.
  intros Hv. split; [by apply add_frame|]. split; [by apply remove_frame|].
  split; [by apply join_frame|].
  destruct (leave_group_others user group b) as [Hd Hmu].
  split; [exact Hd|]. split; [by apply leave_group_frame|apply Hmu].
Qed.

Lemma remove_gone (user : string) (b : bot) :
  user ∈ distro_list b ->
  distro_list (remove_from_distro_list user b) = distro_list b ∖ {[user]}
  /\ user_groups (remove_from_distro_list user b) !! user = None
  /\ muted_users (remove_from_distro_list user b) !! user = None.
Proof.
  intros Hu. unfold remove_from_distro_list. rewrite decide_True by done.
  set (b1 := set_registry _ _ _ b).
  destruct (save_spec b1) as (Hd & Hug & Hmu & _). proj_simpl.
  rewrite Hd, Hug, Hmu. subst b1. proj_simpl.
  rewrite !decide_False by set_solver.
  by rewrite !lookup_delete_eq.
Qed.

Lemma add_joins (user : string) (b : bot) :
  user ∉ distro_list b ->
  distro_list (add_to_distro_list user b) = {[user]} ∪ distro_list b.
Proof.
  intros Hu. unfold add_to_distro_list. rewrite decide_True by done.
  set (b1 := set_registry _ _ _ b).
  destruct (save_spec b1) as (Hd & _). proj_simpl. rewrite Hd. by subst b1.
Qed.

(** X5. In a reachable state, adding a user who is not in the distribution
    list and removing the same user again gives back the contents of the
    registry: nothing of the default groups stays behind. *)
Theorem add_then_remove (user : string) (b : bot) :
  reachable b -> user ∉ distro_list b ->
  same_contents b
    (remove_from_distro_list user (add_to_distro_list user b)).
Proof.
  intros Hreach Hu. apply reachable_inv in Hreach.
  destruct (registry_inv_absent b user Hreach Hu) as [Hug Hmu].
  pose proof (add_joins user b Hu) as Hadd.
  assert (Hin : user ∈ distro_list (add_to_distro_list user b))
    by (rewrite Hadd; set_solver).
  destruct (remove_gone user _ Hin) as (Hd & Hug' & Hmu').
  unfold same_contents. split; [|split].
  - rewrite Hd, Hadd. clear -Hu. set_solver.
  - intros v. destruct (decide (v = user)) as [->|Hv].
    + by rewrite (dd_get_absent _ _ Hug'), (dd_get_absent _ _ Hug).
    + destruct (remove_frame user v (add_to_distro_list user b) Hv)
        as (_ & -> & _).
      by destruct (add_frame user v b Hv) as (_ & -> & _).
  - intros v. destruct (decide (v = user)) as [->|Hv].
    + by rewrite (dd_get_absent _ _ Hmu'), (dd_get_absent _ _ Hmu).
    + destruct (remove_frame user v (add_to_distro_list user b) Hv)
        as (_ & _ & ->).
      by destruct (add_frame user v b Hv) as (_ & _ & ->).
Qed.

(** X6. Each of the four registry operations answers the invoking user
    with exactly one message, in every branch, and sends nothing to anyone
    else. *)
Theorem one_acknowledgement_per_operation (user : string)
    (gs : list string) (group : string) (b : bot) :
  (exists text, sent (add_to_distro_list user b)
                = (sent b ++ [(user, text, deliver io user text)])%list)
  /\ (exists text, sent (remove_from_distro_list user b)
                   = (sent b ++ [(user, text, deliver io user text)])%list)
  /\ (exists text, sent (add_user_to_groups user gs b)
                   = (sent b ++ [(user, text, deliver io user text)])%list)
  /\ (exists text, sent (remove_user_from_group user group b)
                   = (sent b ++ [(user, text, deliver io user text)])%list).
Proof.
  split_and!.
  - unfold add_to_distro_list.
    destruct (decide (user ∉ distro_list b)); [|eexists; by proj_simpl].
    set (b1 := set_registry _ _ _ b).
    destruct (save_spec b1) as (_ & _ & _ & _ & Hs & _). proj_simpl.
    rewrite Hs. eexists. reflexivity.
  - unfold remove_from_distro_list.
    destruct (decide (user ∈ distro_list b)); [|eexists; by proj_simpl].
    set (b1 := set_registry _ _ _ b).
    destruct (save_spec b1) as (_ & _ & _ & _ & Hs & _). proj_simpl.
    rewrite Hs. eexists. reflexivity.
  - unfold add_user_to_groups.
    destruct (decide (user ∈ distro_list b)); [|eexists; by proj_simpl].
    set (b1 := set_user_groups _ b).
    destruct (save_spec b1) as (_ & _ & _ & _ & Hs & _). proj_simpl.
    rewrite Hs. eexists. reflexivity.
  - unfold remove_user_from_group.
    destruct (decide (user ∈ distro_list b)); [|eexists; by proj_simpl].
    rewrite dd_getitem_eq.
    destruct (decide (group ∈ dd_get (user_groups b) user));
      [|eexists; by proj_simpl].
    set (b1 := set_user_groups _ b).
    destruct (save_spec b1) as (_ & _ & _ & _ & Hs & _). proj_simpl.
    rewrite Hs. eexists. reflexivity.
Qed.

(** ** What radio traffic leaves alone *)

Lemma same_contents_refl (b : bot) : same_contents b b.
Proof. by unfold same_contents. Qed.

Lemma same_contents_trans (b1 b2 b3 : bot) :
  same_contents b1 b2 -> same_contents b2 b3 -> same_contents b1 b3.
Proof.
  unfold same_contents. intros (Hd & Hu & Hm) (Hd' & Hu' & Hm').
  split_and!; [congruence|..]; intros u.
  - by rewrite Hu', Hu.
  - by rewrite Hm', Hm.
Qed.

Lemma radio_frame_refl (b : bot) : radio_frame b b.
Proof. unfold radio_frame, same_contents. by split_and!. Qed.

Lemma radio_frame_trans (b1 b2 b3 : bot) :
  radio_frame b1 b2 -> radio_frame b2 b3 -> radio_frame b1 b3.
Proof.
  unfold radio_frame.
  intros (Hc & H1 & H2 & H3 & H4 & H5 & H6)
         (Hc' & H1' & H2' & H3' & H4' & H5' & H6').
  split_and!; try congruence. by eapply same_contents_trans.
Qed.

Lemma send_to_users_frame (message : string) (group : option string)
    (b : bot) :
  radio_frame b (_send_to_users message group b).
Proof.
  destruct (send_to_users_spec message group b)
    as (ug' & mu' & us & -> & Hug & Hmu & _).
  unfold radio_frame, same_contents. proj_simpl. by split_and!.
Qed.

Lemma check_and_forward_frame (sender content : string) (b : bot) :
  radio_frame b (check_and_forward sender content b).
Proof.
  unfold check_and_forward, forward_by_scope.
  destruct (has_blocked_word content b); [exact (radio_frame_refl b)|].
  destruct (Py.any (Py.startswith content) (js8groups b)).
  - destruct (Py.first_match _ (js8groups b)) as [g|];
      [|apply radio_frame_refl].
    unfold forward_group_message.
    apply (send_to_users_frame
             ("Group message from " ++ sender ++ " to " ++ g ++ ": "
              ++ Py.strip (Py.slice_from (String.length g) content))
             (Some g) b).
  - destruct (Py.any (Py.startswith content) (js8urgent b)).
    + destruct (Py.first_match _ (js8urgent b)) as [g|];
        [|apply radio_frame_refl].
      unfold forward_urgent_message.
      apply (send_to_users_frame
               ("URGENT message from " ++ sender ++ " to " ++ g ++ ": "
                ++ Py.strip (Py.slice_from (String.length g) content))
               (Some g) b).
    + unfold forward_direct_message.
      apply (send_to_users_frame
               ("Direct message from " ++ sender ++ ": " ++ content) None b).
Qed.

Lemma handle_frame (data : decoded) (b : bot) :
  radio_frame b (handle_js8call_message data b).
Proof.
  destruct data as [[ty|] value|]; try exact (radio_frame_refl b).
  unfold handle_js8call_message.
  destruct (jval_eq ty "RX.DIRECTED"); [|apply radio_frame_refl].
  destruct value as [[v|]|]; try exact (radio_frame_refl b).
  destruct (length (Py.split ":" v) <? 2)%nat;
    [exact (radio_frame_refl b)|apply check_and_forward_frame].
Qed.

Lemma process_lines_frame (lines : list string) (b : bot) :
  radio_frame b (bot_of (process_lines b lines)).
Proof.
  apply (process_lines_rel radio_frame).
  - apply radio_frame_refl.
  - apply radio_frame_trans.
  - apply handle_frame.
  - intros lv text b0. exact (radio_frame_refl b0).
Qed.

Lemma process_messages_frame (r : recv_outcome) (b : bot) :
  radio_frame b (process_js8call_messages r b).
Proof.
  unfold process_js8call_messages.
  destruct (js8call_connected b); [|apply radio_frame_refl]. cbn [negb].
  destruct r as [data|]; [|exact (radio_frame_refl b)].
  destruct (decide (data = EmptyString)); [exact (radio_frame_refl b)|].
  pose proof (process_lines_frame (Py.split "010" (Py.strip data))
                (emit EvRecv b)) as Hf.
  destruct (process_lines _ _) as [b'|b']; cbn [bot_of] in Hf.
  - apply (radio_frame_trans b (emit EvRecv b));
      [exact (radio_frame_refl b)|exact Hf].
  - apply (radio_frame_trans b b');
      [apply (radio_frame_trans b (emit EvRecv b));
         [exact (radio_frame_refl b)|exact Hf]
      |exact (radio_frame_refl b')].
Qed.

Lemma iteration_frame (env : connect_outcome * recv_outcome) (b : bot) :
  radio_frame b (js8call_iteration env b).
Proof.
  destruct env as [c r]. unfold js8call_iteration.
  destruct (js8call_connected b) eqn:Hc; cbn [negb].
  - rewrite Hc.
    eapply radio_frame_trans;
      [apply (process_messages_frame r b)|].
    exact (radio_frame_refl (process_js8call_messages r b)).
  - destruct c; cbn [connect_js8call]; proj_simpl;
      try exact (radio_frame_refl b).
    match goal with
    | |- context [process_js8call_messages r ?b1] =>
        apply (radio_frame_trans b (process_js8call_messages r b1));
          [apply (radio_frame_trans b b1);
             [exact (radio_frame_refl b)
             |apply (process_messages_frame r b1)]
          |exact (radio_frame_refl (process_js8call_messages r b1))]
    end.
Qed.

(** X7. Whatever the radio link receives and however its connection
    fares, the loop changes neither the distribution list, nor the groups
    and mutes of any user, nor the store, the configuration, the catalogs
    or the blocked words. *)
Theorem radio_traffic_leaves_registry_alone
    (envs : list (connect_outcome * recv_outcome)) (b : bot) :
  radio_frame b (js8call_loop envs b).
Proof.
  unfold js8call_loop. revert b.
  induction envs as [|env envs IH]; intros b; [apply radio_frame_refl|].
  cbn [foldl]. eapply radio_frame_trans; [apply iteration_frame|apply IH].
Qed.

(** ** The store follows the registry *)

Lemma store_describes_contents (b b' : bot) :
  same_contents b b' -> storage b' = storage b ->
  store_describes b -> store_describes b'.
Proof.
  unfold store_describes. intros (Hd & Hug & Hmu) Hs H u.
  specialize (H u). rewrite Hs, Hd.
  destruct (default ∅ (storage b) !! u); [|exact H].
  by rewrite Hug, Hmu.
Qed.

Lemma store_describes_eq (b b' : bot) :
  distro_list b' = distro_list b -> user_groups b' = user_groups b ->
  muted_users b' = muted_users b -> storage b' = storage b ->
  store_describes b -> store_describes b'.
Proof. unfold store_describes. by intros -> -> -> ->. Qed.

Lemma save_describes (b : bot) :
  storage_up b = true -> store_describes (save_state_to_storage b).
Proof.
  intros Hup. destruct (save_spec b) as (Hd & _ & _ & Hst & _).
  destruct (Hst Hup) as (data & Hdata & Hlook).
  destruct (save_same_contents b) as (_ & Hug & Hmu).
  unfold store_describes. intros u. rewrite Hdata, Hd. simpl.
  rewrite Hlook. destruct (decide (u ∈ distro_list b)) as [Hin|Hout];
    [|exact Hout].
  simpl. by rewrite !list_to_set_elements_L, Hug, Hmu.
Qed.

Lemma load_fold_store (l : list (string * user_data)) :
  forall b,
    storage (foldl load_user b l) = storage b
    /\ storage_up (foldl load_user b l) = storage_up b.
Proof.
  induction l as [|[k ud] l IH]; intros b; [done|].
  cbn [foldl]. destruct (IH (load_user b (k, ud))) as [-> ->]. done.
Qed.

Lemma load_store (b : bot) :
  storage (load_state_from_storage b) = storage b
  /\ storage_up (load_state_from_storage b) = storage_up b.
Proof.
  unfold load_state_from_storage. destruct (storage_up b) eqn:Hup;
    [|by proj_simpl].
  proj_simpl. destruct (decide (default ∅ (storage b) = ∅)); [done|].
  destruct (load_fold_store (map_to_list (default ∅ (storage b))) b)
    as [-> ->].
  done.
Qed.

Lemma setup_describes (b : bot) :
  storage_up b = true -> store_describes (setup_state b).
Proof.
  intros Hup. unfold setup_state.
  destruct (load_store (set_registry ∅ ∅ ∅ b)) as [Hs _].
  destruct (load_spec (set_registry ∅ ∅ ∅ b) Hup) as (Hd & Hug & Hmu).
  proj_simpl. unfold store_describes. intros u. rewrite Hs. proj_simpl.
  specialize (Hd u). specialize (Hug u). specialize (Hmu u).
  destruct (default ∅ (storage b) !! u) as [ud|] eqn:E.
  - split; [apply Hd; left; eauto|]. unfold dd_get. by rewrite Hug, Hmu.
  - intros H. apply Hd in H as [[? H]|H]; [discriminate|].
    clear -H. set_solver.
Qed.

Lemma storage_up_add (user : string) (b : bot) :
  storage_up (add_to_distro_list user b) = storage_up b.
Proof.
  unfold add_to_distro_list. destruct (decide (user ∉ distro_list b));
    [|done].
  set (b1 := set_registry _ _ _ b).
  destruct (save_spec b1) as (_ & _ & _ & _ & _ & _ & Hup & _).
  proj_simpl. by rewrite Hup.
Qed.

Lemma storage_up_remove (user : string) (b : bot) :
  storage_up (remove_from_distro_list user b) = storage_up b.
Proof.
  unfold remove_from_distro_list. destruct (decide (user ∈ distro_list b));
    [|done].
  set (b1 := set_registry _ _ _ b).
  destruct (save_spec b1) as (_ & _ & _ & _ & _ & _ & Hup & _).
  proj_simpl. by rewrite Hup.
Qed.

Lemma storage_up_join (user : string) (gs : list string) (b : bot) :
  storage_up (add_user_to_groups user gs b) = storage_up b.
Proof.
  unfold add_user_to_groups. destruct (decide (user ∈ distro_list b));
    [|done].
  set (b1 := set_user_groups _ b).
  destruct (save_spec b1) as (_ & _ & _ & _ & _ & _ & Hup & _).
  proj_simpl. by rewrite Hup.
Qed.

Lemma storage_up_leave (user group : string) (b : bot) :
  storage_up (remove_user_from_group user group b) = storage_up b.
Proof.
  unfold remove_user_from_group. destruct (decide (user ∈ distro_list b));
    [|done].
  rewrite dd_getitem_eq.
  destruct (decide (group ∈ dd_get (user_groups b) user)); [|done].
  set (b1 := set_user_groups _ b).
  destruct (save_spec b1) as (_ & _ & _ & _ & _ & _ & Hup & _).
  proj_simpl. by rewrite Hup.
Qed.

Lemma leave_group_no_member (user group : string) (b : bot) :
  user ∉ distro_list b \/ group ∉ dd_get (user_groups b) user ->
  same_contents b (remove_user_from_group user group b)
  /\ storage (remove_user_from_group user group b) = storage b.
Proof.
  intros Hor. unfold remove_user_from_group, same_contents.
  destruct (decide (user ∈ distro_list b)) as [Hu|Hu]; [|by proj_simpl].
  rewrite dd_getitem_eq.
  destruct (decide (group ∈ dd_get (user_groups b) user)) as [Hg|Hg];
    [by destruct Hor|].
  proj_simpl. split_and!; try reflexivity.
  intros u. apply dd_get_touch.
Qed.

Lemma step_store_describes (b b' : bot) :
  step b b' -> storage_up b = true -> store_describes b ->
  storage_up b' = true /\ store_describes b'.
Proof.
  intros Hstep Hup IH.
  destruct Hstep as [user b|user b|user gs b|user group b|data b|env b].
  - split; [by rewrite storage_up_add|]. unfold add_to_distro_list.
    destruct (decide (user ∉ distro_list b)).
    + eapply store_describes_eq; [..|apply save_describes]; try reflexivity.
      exact Hup.
    + by apply (store_describes_eq b).
  - split; [by rewrite storage_up_remove|]. unfold remove_from_distro_list.
    destruct (decide (user ∈ distro_list b)).
    + eapply store_describes_eq; [..|apply save_describes]; try reflexivity.
      exact Hup.
    + by apply (store_describes_eq b).
  - split; [by rewrite storage_up_join|]. unfold add_user_to_groups.
    destruct (decide (user ∈ distro_list b)).
    + eapply store_describes_eq; [..|apply save_describes]; try reflexivity.
      exact Hup.
    + by apply (store_describes_eq b).
  - split; [by rewrite storage_up_leave|].
    destruct (decide (user ∈ distro_list b
                      /\ group ∈ dd_get (user_groups b) user)) as [[Hu Hg]|Hno].
    + unfold remove_user_from_group. rewrite decide_True by done.
      rewrite dd_getitem_eq. rewrite decide_True by done.
      eapply store_describes_eq; [..|apply save_describes]; try reflexivity.
      exact Hup.
    + assert (Hor : user ∉ distro_list b
                    \/ group ∉ dd_get (user_groups b) user).
      { destruct (decide (user ∈ distro_list b)); [|by left].
        right. intros Hg. by apply Hno. }
      destruct (leave_group_no_member user group b Hor) as [Hc Hs].
      by apply (store_describes_contents b).
  - destruct (handle_frame data b) as (Hc & Hs & Hu & _).
    split; [by rewrite Hu|]. by apply (store_describes_contents b).
  - destruct (iteration_frame env b) as (Hc & Hs & Hu & _).
    split; [by rewrite Hu|]. by apply (store_describes_contents b).
Qed.

Lemma restart_same_contents (b : bot) :
  registry_inv b -> storage_up b = true -> store_describes b ->
  same_contents b (setup_state b).
Proof.
  intros Hinv Hup Hdesc. unfold setup_state.
  destruct (load_spec (set_registry ∅ ∅ ∅ b) Hup) as (Hd & Hug & Hmu).
  proj_simpl. unfold same_contents. split_and!.
  - apply set_eq. intros u. rewrite Hd. specialize (Hdesc u).
    destruct (default ∅ (storage b) !! u) as [ud|].
    + destruct Hdesc as [Hin _]. split; [done|eauto].
    + split; [|done]. intros [[? H]|H]; [discriminate|].
      clear -H. set_solver.
  - intros u. unfold dd_get at 1. rewrite Hug. specialize (Hdesc u).
    destruct (default ∅ (storage b) !! u) as [ud|].
    + by destruct Hdesc as (_ & -> & _).
    + rewrite lookup_empty. simpl.
      destruct (registry_inv_absent b u Hinv Hdesc) as [E _].
      by rewrite (dd_get_absent _ _ E).
  - intros u. unfold dd_get at 1. rewrite Hmu. specialize (Hdesc u).
    destruct (default ∅ (storage b) !! u) as [ud|].
    + by destruct Hdesc as (_ & _ & ->).
    + rewrite lookup_empty. simpl.
      destruct (registry_inv_absent b u Hinv Hdesc) as [_ E].
      by rewrite (dd_get_absent _ _ E).
Qed.

(** X8. While the store answers, the store follows the registry:
    [setup_state] leaves a store that describes the registry it has
    loaded; every operation (a registry command, a handled radio event, a
    turn of the link loop) made with the store answering and describing
    the registry leaves it answering and describing the registry; and in
    a reachable state whose store answers and describes the registry, a
    restart, which loads the store into an empty registry, gives back the
    distribution list and the groups and mutes of every user. A save that
    failed is swallowed, so a reachable state whose store answers again
    need not be described by it: the last part asks for it. *)
Theorem restart_restores_registry (b b' : bot) :
  (storage_up b = true ->
   storage_up (setup_state b) = true /\ store_describes (setup_state b))
  /\ (storage_up b = true -> store_describes b -> step b b' ->
      storage_up b' = true /\ store_describes b')
  /\ (reachable b -> storage_up b = true -> store_describes b ->
      same_contents b (setup_state b)).
Proof.
  split_and!.
  - intros Hup. split; [|by apply setup_describes].
    unfold setup_state.
    destruct (load_store (set_registry ∅ ∅ ∅ b)) as [_ E].
    rewrite E. exact Hup.
  - intros Hup Hdesc Hstep. by apply (step_store_describes b b').
  - intros Hreach Hup Hdesc. apply restart_same_contents; [|done..].
    by apply reachable_inv.
Qed.

(** X9. When the store does not answer, adding a user still puts the user
    in the distribution list and still sends the welcome message, while
    the store keeps what it held and the call logs the failed save before
    it logs the addition: memory is ahead of the store, which no longer
    describes the registry if it did before. *)
Theorem store_down_keeps_memory_ahead (user : string) (b : bot) :
  storage_up b = false -> user ∉ distro_list b ->
  user ∈ distro_list (add_to_distro_list user b)
  /\ storage (add_to_distro_list user b) = storage b
  /\ logger (add_to_distro_list user b)
     = (logger b
        ++ [(ERROR, "Error saving state to storage");
            (INFO, ("Added " ++ user ++ " to distribution list")%string)])%list
  /\ sent (add_to_distro_list user b)
     = (sent b
        ++ [(user, welcome_text b, deliver io user (welcome_text b))])%list
  /\ (store_describes b -> ¬ store_describes (add_to_distro_list user b)).
Proof.
  intros Hup Hu.
  assert (Hin : user ∈ distro_list (add_to_distro_list user b)).
  { rewrite (add_joins user b Hu). clear. set_solver. }
  assert (Hst : storage (add_to_distro_list user b) = storage b
                /\ logger (add_to_distro_list user b)
                   = (logger b
                      ++ [(ERROR, "Error saving state to storage");
                          (INFO, ("Added " ++ user
                                  ++ " to distribution list")%string)])%list
                /\ sent (add_to_distro_list user b)
                   = (sent b
                      ++ [(user, welcome_text b,
                           deliver io user (welcome_text b))])%list).
  { unfold add_to_distro_list, welcome_text. rewrite decide_True by done.
    set (b1 := set_registry _ _ _ b).
    destruct (save_store_down b1 Hup) as [Hs Hl].
    destruct (save_spec b1) as (_ & _ & _ & _ & Hsent & _).
    proj_simpl. rewrite Hs, Hl, Hsent. subst b1. proj_simpl.
    split_and!; [done|by rewrite <- app_assoc|].
    by destruct (default_groups b). }
  destruct Hst as (Hs & Hl & Hsent). split_and!; try done.
  intros Hdesc Hdesc'. specialize (Hdesc user). specialize (Hdesc' user).
  rewrite Hs in Hdesc'.
  destruct (default ∅ (storage b) !! user) as [ud|];
    [by destruct Hdesc|done].
Qed.

(** ** Turns of the radio-link loop *)

Lemma sleeps_app (t1 t2 : list io_event) :
  sleeps (t1 ++ t2) = (sleeps t1 ++ sleeps t2)%list.
Proof.
  induction t1 as [|e t1 IH]; [reflexivity|].
  destruct e; simpl; by rewrite IH.
Qed.

Lemma connects_app (t1 t2 : list io_event) :
  connects (t1 ++ t2) = (connects t1 + connects t2)%nat.
Proof.
  induction t1 as [|e t1 IH]; [reflexivity|].
  destruct e; simpl; by rewrite IH.
Qed.

Lemma iteration_events (env : connect_outcome * recv_outcome) (b : bot) :
  exists new n,
    trace (js8call_iteration env b) = (trace b ++ new)%list
    /\ sleeps new = [n] /\ (n = 1 \/ n = 5)%nat
    /\ (connects new <= 1)%nat.
Proof.
  destruct env as [c r]. destruct (js8call_connected b) eqn:Hc.
  - destruct (iteration_connected c r b Hc) as [Ht _].
    exists [EvRecv; EvSleep 1], 1. rewrite Ht. simpl. auto.
  - rewrite (iteration_disconnected c r b Hc). destruct c.
    + exists [EvConnect; EvRecv; EvSleep 1], 1. simpl. auto.
    + exists [EvConnect; EvSleep 1], 1. simpl. auto.
    + exists [EvConnect; EvSleep 5], 5. simpl. auto.
Qed.

(** X10. Every turn of the radio-link loop ends in exactly one sleep, of 1
    or of 5 seconds, and makes at most one connect attempt, whatever the
    socket answers: the loop never spins and never connects twice in a
    turn. *)
Theorem loop_sleeps_once_per_turn
    (envs : list (connect_outcome * recv_outcome)) (b : bot) :
  exists new,
    trace (js8call_loop envs b) = (trace b ++ new)%list
    /\ length (sleeps new) = length envs
    /\ Forall (λ n, n = 1 \/ n = 5)%nat (sleeps new)
    /\ (connects new <= length envs)%nat.
Proof.
  unfold js8call_loop. revert b.
  induction envs as [|env envs IH]; intros b.
  - exists []. simpl. rewrite app_nil_r. split_and!; auto.
  - cbn [foldl].
    destruct (iteration_events env b) as (new1 & n & Ht1 & Hs1 & Hn & Hc1).
    destruct (IH (js8call_iteration env b)) as (new2 & Ht2 & Hl2 & Hf2 & Hc2).
    exists (new1 ++ new2)%list.
    rewrite Ht2, Ht1, <- app_assoc, sleeps_app, connects_app, Hs1.
    split_and!; [reflexivity|simpl; by rewrite Hl2| |simpl; lia].
    simpl. by constructor.
Qed.

Lemma iteration_refused (r : recv_outcome) (b : bot) :
  js8call_connected b = false ->
  js8call_connected (js8call_iteration (ConnectRaises, r) b) = false
  /\ trace (js8call_iteration (ConnectRaises, r) b)
     = (trace b ++ [EvConnect; EvSleep 1])%list
  /\ sent (js8call_iteration (ConnectRaises, r) b) = sent b
  /\ db (js8call_iteration (ConnectRaises, r) b) = db b.
Proof.
  intros Hc. split_and!.
  - unfold js8call_iteration. rewrite Hc. reflexivity.
  - by rewrite (iteration_disconnected ConnectRaises r b Hc).
  - unfold js8call_iteration. rewrite Hc. reflexivity.
  - unfold js8call_iteration. rewrite Hc. reflexivity.
Qed.

(** X11. While the radio endpoint refuses the connection, the loop stays
    disconnected and retries once per turn, one second apart, without end
    and without sending or recording anything. *)
Theorem refused_connects_are_retried
    (envs : list (connect_outcome * recv_outcome)) (b : bot) :
  js8call_connected b = false ->
  Forall (λ env, env.1 = ConnectRaises) envs ->
  js8call_connected (js8call_loop envs b) = false
  /\ trace (js8call_loop envs b)
     = (trace b ++ mjoin (replicate (length envs) [EvConnect; EvSleep 1]))%list
  /\ sent (js8call_loop envs b) = sent b
  /\ db (js8call_loop envs b) = db b.
Proof.
  unfold js8call_loop. revert b.
  induction envs as [|[c r] envs IH]; intros b Hc Hall.
  - simpl. rewrite app_nil_r. auto.
  - apply Forall_cons in Hall as [Hhead Hall]. simpl in Hhead. subst c.
    cbn [foldl].
    destruct (iteration_refused r b Hc) as (Hc1 & Ht1 & Hs1 & Hd1).
    destruct (IH _ Hc1 Hall) as (Hc2 & Ht2 & Hs2 & Hd2).
    rewrite Hc2, Ht2, Hs2, Hd2, Ht1, Hs1, Hd1.
    split_and!; try reflexivity.
    cbn [length replicate mjoin list_join]. by rewrite <- app_assoc.
Qed.

(** ** What the handler drops and what it records *)

Lemma first_match_some {A} (f : A -> bool) (l : list A) :
  Py.any f l = true ->
  exists g, Py.first_match f l = Some g /\ g ∈ l /\ f g = true.
Proof.
  induction l as [|x l IH]; [discriminate|].
  simpl. destruct (f x) eqn:E.
  - intros _. exists x. split_and!; auto. apply list_elem_of_here.
  - simpl. intros H. destruct (IH H) as (g & Hg & Hin & Hf).
    exists g. split_and!; auto. by apply list_elem_of_further.
Qed.

(** X12. An event that is no object, has no type, is of another type than
    [RX.DIRECTED], or whose value is missing, is no string or holds no
    colon, changes nothing but the log: at most one log record is added. *)
Theorem dropped_events_only_log (data : decoded) (b : bot) :
  ¬ forwardable data ->
  handle_js8call_message data b = b
  \/ exists lv text, handle_js8call_message data b = log lv text b.
Proof.
  intros Hno. destruct data as [[ty|] value|]; [|right; by eexists _, _..].
  unfold handle_js8call_message.
  destruct (jval_eq ty "RX.DIRECTED") eqn:Hty; [|by left].
  destruct value as [[v|]|]; [|right; by eexists _, _..].
  destruct (Py.contains ":" v) eqn:Hcolon.
  - exfalso. apply Hno. by exists ty, v.
  - right. unfold Py.split. rewrite (split_fields_no_sep _ _ Hcolon).
    by eexists _, _.
Qed.

Lemma forward_by_scope_records (sender content : string) (b : bot) :
  exists label body,
    db (forward_by_scope sender content b)
    = (db b ++ [(sender, label, body)])%list
    /\ ((label = "DIRECT" /\ body = content)
        \/ (in_catalog b label /\ is_prefix label content
            /\ body = Py.strip
                        (Py.slice_from (String.length label) content))).
Proof.
  unfold forward_by_scope, in_catalog.
  destruct (Py.any (Py.startswith content) (js8groups b)) eqn:Hg.
  - destruct (first_match_some _ _ Hg) as (g & -> & Hin & Hpre).
    destruct (forward_group_spec sender g
                (Py.strip (Py.slice_from (String.length g) content)) b)
      as (us & _ & _ & _ & Hdb).
    eexists _, _. split; [exact Hdb|]. right.
    split_and!; auto. by apply startswith_inv.
  - destruct (Py.any (Py.startswith content) (js8urgent b)) eqn:Hu.
    + destruct (first_match_some _ _ Hu) as (g & -> & Hin & Hpre).
      destruct (forward_urgent_spec sender g
                  (Py.strip (Py.slice_from (String.length g) content)) b)
        as (us & _ & _ & _ & Hdb).
      eexists _, _. split; [exact Hdb|]. right.
      split_and!; auto. by apply startswith_inv.
    + destruct (forward_direct_spec sender content b)
        as (us & _ & _ & _ & Hdb).
      eexists _, _. split; [exact Hdb|]. by left.
Qed.

Lemma has_blocked_word_true (content : string) (b : bot) :
  has_blocked_word content b = true
  <-> exists word,
        word ∈ blocked_words b
        /\ Py.contains (str_lower io word) (str_lower io content) = true.
Proof.
  unfold has_blocked_word, Py.any. rewrite existsb_exists.
  split; intros (word & Hin & H); exists word;
    (split; [by apply list_elem_of_In|exact H]).
Qed.

(** C4. The check of line 315 compares the lower-cased forms, and nothing
    else decides: when the lower-cased form of some blocked word occurs in
    the lower-cased content the processing stops (nothing is sent, nothing
    is recorded, the registry and the store are as before); when the
    lower-cased form of no blocked word occurs there the message is
    forwarded and recorded in the history, whether or not a blocked word
    occurs in the content itself. [str.lower] turns a capital sigma at the
    end of a word into the final sigma and a capital sigma on its own into
    the other one, so the content of an alpha and a capital sigma is
    forwarded past the blocked word of a capital sigma. *)
Theorem blocked_message_dropped (sender content : string) (b : bot) :
  ((exists word,
      word ∈ blocked_words b
      /\ Py.contains (str_lower io word) (str_lower io content) = true) ->
   check_and_forward sender content b
   = log INFO ("Message from " ++ sender
               ++ " contains blocked words. Skipping.") b
   /\ sent (check_and_forward sender content b) = sent b
   /\ db (check_and_forward sender content b) = db b
   /\ same_registry b (check_and_forward sender content b)
   /\ storage (check_and_forward sender content b) = storage b)
  /\ ((forall word,
         word ∈ blocked_words b ->
         Py.contains (str_lower io word) (str_lower io content) = false) ->
      check_and_forward sender content b = forward_by_scope sender content b
      /\ exists label body,
           db (check_and_forward sender content b)
           = (db b ++ [(sender, label, body)])%list).
Proof.
  split.
  - intros H. apply has_blocked_word_true in H.
    unfold check_and_forward, same_registry. rewrite H.
    repeat split; reflexivity.
  - intros H.
    assert (E : check_and_forward sender content b
                = forward_by_scope sender content b).
    { unfold check_and_forward.
      destruct (has_blocked_word content b) eqn:E; [|reflexivity].
      apply has_blocked_word_true in E as (word & Hin & Hc).
      rewrite (H word Hin) in Hc. discriminate. }
    split; [exact E|]. rewrite E.
    destruct (forward_by_scope_records sender content b)
      as (label & body & Hdb & _).
    by exists label, body.
Qed.

(** X13. Every [RX.DIRECTED] value with a colon whose content is not
    blocked is recorded exactly once in the history, under its sender and
    either as [DIRECT] with the whole content or under a catalog group that
    is a prefix of the content, with the rest of the content, trimmed. *)
Theorem accepted_message_recorded_once (a c : string) (b : bot) :
  Py.contains ":" a = false ->
  has_blocked_word (Py.strip c) b = false ->
  exists label body,
    db (handle_js8call_message (rx_directed (a ++ ":" ++ c)) b)
    = (db b ++ [(Py.strip a, label, body)])%list
    /\ ((label = "DIRECT" /\ body = Py.strip c)
        \/ (in_catalog b label /\ is_prefix label (Py.strip c)
            /\ body = Py.strip
                        (Py.slice_from (String.length label) (Py.strip c)))).
Proof.
  intros Ha Hok. rewrite (handle_colon _ _ _ Ha).
  unfold check_and_forward. rewrite Hok. apply forward_by_scope_records.
Qed.

Lemma send_to_users_members (message : string) (group : option string)
    (b : bot) :
  exists new,
    sent (_send_to_users message group b) = (sent b ++ new)%list
    /\ forall u t ok, (u, t, ok) ∈ new -> u ∈ distro_list b.
Proof.
  destruct (send_to_users_spec message group b)
    as (ug' & mu' & us & -> & _ & _ & _ & _ & _ & Hus).
  exists (deliveries message us). proj_simpl. split; [reflexivity|].
  intros u t ok Hin. unfold deliveries in Hin.
  apply list_elem_of_fmap in Hin as (x & Heq & Hx).
  inversion Heq; subst. by apply Hus in Hx as [Hx _].
Qed.

Lemma handle_members (data : decoded) (b : bot) :
  exists new,
    sent (handle_js8call_message data b) = (sent b ++ new)%list
    /\ forall u t ok, (u, t, ok) ∈ new -> u ∈ distro_list b.
Proof.
  assert (Hnone : forall b' : bot, sent b' = sent b ->
            exists new, sent b' = (sent b ++ new)%list
              /\ forall u t ok, (u, t, ok) ∈ new -> u ∈ distro_list b).
  { intros b' ->. exists []. rewrite app_nil_r. split; [done|].
    intros u t ok H. by apply elem_of_nil in H. }
  destruct data as [[ty|] value|]; try (by apply Hnone).
  unfold handle_js8call_message.
  destruct (jval_eq ty "RX.DIRECTED"); [|by apply Hnone].
  destruct value as [[v|]|]; try (by apply Hnone).
  destruct (length (Py.split ":" v) <? 2)%nat; [by apply Hnone|].
  unfold check_and_forward, forward_by_scope.
  destruct (has_blocked_word _ b); [by apply Hnone|].
  destruct (Py.any _ (js8groups b)).
  - destruct (Py.first_match _ (js8groups b)) as [g|]; [|by apply Hnone].
    unfold forward_group_message. apply send_to_users_members.
  - destruct (Py.any _ (js8urgent b)).
    + destruct (Py.first_match _ (js8urgent b)) as [g|]; [|by apply Hnone].
      unfold forward_urgent_message. apply send_to_users_members.
    + unfold forward_direct_message. apply send_to_users_members.
Qed.

Lemma members_refl (b b' : bot) :
  sent b' = sent b ->
  exists new,
    sent b' = (sent b ++ new)%list
    /\ forall u t ok, (u, t, ok) ∈ new -> u ∈ distro_list b.
Proof.
  intros ->. exists []. rewrite app_nil_r. split; [done|].
  intros u t ok H. by apply elem_of_nil in H.
Qed.

Lemma members_trans (b1 b2 b3 : bot) :
  distro_list b2 = distro_list b1 ->
  (exists new,
     sent b2 = (sent b1 ++ new)%list
     /\ forall u t ok, (u, t, ok) ∈ new -> u ∈ distro_list b1) ->
  (exists new,
     sent b3 = (sent b2 ++ new)%list
     /\ forall u t ok, (u, t, ok) ∈ new -> u ∈ distro_list b2) ->
  exists new,
    sent b3 = (sent b1 ++ new)%list
    /\ forall u t ok, (u, t, ok) ∈ new -> u ∈ distro_list b1.
Proof.
  intros Hd (n1 & E1 & H1) (n2 & E2 & H2). exists (n1 ++ n2)%list.
  rewrite E2, E1, <- app_assoc. split; [done|].
  intros u t ok Hin. apply elem_of_app in Hin as [Hin|Hin].
  - by eapply H1.
  - rewrite <- Hd. by eapply H2.
Qed.

Lemma process_lines_members (lines : list string) (b : bot) :
  distro_list (bot_of (process_lines b lines)) = distro_list b
  /\ exists new,
       sent (bot_of (process_lines b lines)) = (sent b ++ new)%list
       /\ forall u t ok, (u, t, ok) ∈ new -> u ∈ distro_list b.
Proof.
  apply (process_lines_rel
           (λ b b', distro_list b' = distro_list b
                    /\ exists new,
                         sent b' = (sent b ++ new)%list
                         /\ forall u t ok,
                              (u, t, ok) ∈ new -> u ∈ distro_list b)).
  - intros b0. split; [done|by apply members_refl].
  - intros b1 b2 b3 [Hd1 H1] [Hd2 H2]. split; [by rewrite Hd2|].
    by apply (members_trans b1 b2).
  - intros data b0. split; [|apply handle_members].
    by destruct (handle_frame data b0) as ((Hd & _) & _).
  - intros lv text b0. split; [done|by apply members_refl].
Qed.

Lemma iteration_members (env : connect_outcome * recv_outcome) (b : bot) :
  exists new,
    sent (js8call_iteration env b) = (sent b ++ new)%list
    /\ forall u t ok, (u, t, ok) ∈ new -> u ∈ distro_list b.
Proof.
  assert (Hproc : forall r b1,
            distro_list b1 = distro_list b -> sent b1 = sent b ->
            exists new,
              sent (process_js8call_messages r b1) = (sent b ++ new)%list
              /\ forall u t ok, (u, t, ok) ∈ new -> u ∈ distro_list b).
  { intros r b1 Hd Hs. rewrite <- Hs, <- Hd.
    unfold process_js8call_messages.
    destruct (js8call_connected b1); [|by apply members_refl]. cbn [negb].
    destruct r as [data|]; [|by apply members_refl].
    destruct (decide (data = EmptyString)); [by apply members_refl|].
    pose proof (process_lines_members (Py.split "010" (Py.strip data))
                  (emit EvRecv b1)) as [_ Hm].
    by destruct (process_lines _ _) as [b'|b']. }
  destruct env as [c r]. unfold js8call_iteration.
  destruct (js8call_connected b) eqn:Hc; cbn [negb].
  - rewrite Hc. proj_simpl. by apply Hproc.
  - destruct c; cbn [connect_js8call]; proj_simpl;
      try (by apply members_refl).
    by apply Hproc.
Qed.

Lemma loop_members (envs : list (connect_outcome * recv_outcome)) (b : bot) :
  exists new,
    sent (js8call_loop envs b) = (sent b ++ new)%list
    /\ forall u t ok, (u, t, ok) ∈ new -> u ∈ distro_list b.
Proof.
  unfold js8call_loop. revert b.
  induction envs as [|env envs IH]; intros b; [by apply members_refl|].
  cbn [foldl].
  apply (members_trans b (js8call_iteration env b));
    [|apply iteration_members|apply IH].
  by destruct (iteration_frame env b) as ((Hd & _) & _).
Qed.

(** X14. Whatever the radio link receives, the loop sends only to users of
    the distribution list: a user outside the list receives nothing,
    whatever the group and mute records say. *)
Theorem forwarding_reaches_subscribers_only
    (envs : list (connect_outcome * recv_outcome)) (b : bot) :
  exists new,
    sent (js8call_loop envs b) = (sent b ++ new)%list
    /\ forall u t ok, (u, t, ok) ∈ new -> u ∈ distro_list b.
Proof. apply loop_members. Qed.

(** ** Reading the configuration *)

Lemma contains_cons_false_intro (sep c : ascii) (r : string) :
  Ascii.eqb c sep = false ->
  Py.contains (String sep EmptyString) r = false ->
  Py.contains (String sep EmptyString) (String c r) = false.
Proof.
  intros Hc Hr. cbn [Py.contains]. rewrite eqb_colon_prefix, Hr.
  rewrite Ascii.eqb_sym, Hc. reflexivity.
Qed.

Lemma split_fields_no_sep_in (sep : ascii) (s : string) :
  Py.contains (String sep EmptyString) (Py.split_fields sep s).1 = false
  /\ forall x, x ∈ (Py.split_fields sep s).2 ->
               Py.contains (String sep EmptyString) x = false.
Proof.
  induction s as [|c r [IH1 IH2]].
  - simpl. split; [reflexivity|]. intros x H. by apply elem_of_nil in H.
  - simpl. destruct (Py.split_fields sep r) as [h t]. simpl in IH1, IH2.
    destruct (Ascii.eqb c sep) eqn:E; simpl.
    + split; [reflexivity|]. intros x Hx.
      apply elem_of_cons in Hx as [->|Hx]; auto.
    + split; [by apply contains_cons_false_intro|exact IH2].
Qed.

Lemma split_no_sep (sep : ascii) (s x : string) :
  x ∈ Py.split sep s -> Py.contains (String sep EmptyString) x = false.
Proof.
  unfold Py.split. destruct (split_fields_no_sep_in sep s) as [H1 H2].
  destruct (Py.split_fields sep s) as [h t]. simpl in H1, H2.
  intros Hx. apply elem_of_cons in Hx as [->|Hx]; auto.
Qed.

Lemma lstrip_no_sep (sep : ascii) (s : string) :
  Py.contains (String sep EmptyString) s = false ->
  Py.contains (String sep EmptyString) (Py.lstrip s) = false.
Proof.
  induction s as [|c r IH]; [done|]. intros H. simpl.
  destruct (Py.isspace c); [|exact H].
  apply contains_cons_false in H as [_ Hr]. by apply IH.
Qed.

Lemma rstrip_no_sep (sep : ascii) (s : string) :
  Py.contains (String sep EmptyString) s = false ->
  Py.contains (String sep EmptyString) (Py.rstrip s) = false.
Proof.
  induction s as [|c r IH]; [done|]. intros H.
  apply contains_cons_false in H as [Hc Hr]. specialize (IH Hr).
  cbn [Py.rstrip]. destruct (Py.rstrip r) as [|d r'].
  - destruct (Py.isspace c); [reflexivity|].
    by apply contains_cons_false_intro.
  - by apply contains_cons_false_intro.
Qed.

Lemma strip_no_sep (sep : ascii) (s : string) :
  Py.contains (String sep EmptyString) s = false ->
  Py.contains (String sep EmptyString) (Py.strip s) = false.
Proof. intros H. unfold Py.strip. by apply rstrip_no_sep, lstrip_no_sep. Qed.

Lemma stripped_field (s g : string) :
  g ∈ map Py.strip (Py.split "," s) ->
  Py.strip g = g /\ Py.contains "," g = false.
Proof.
  intros H. apply list_elem_of_fmap in H as (x & -> & Hx).
  split; [apply strip_idem|]. apply strip_no_sep. by eapply split_no_sep.
Qed.

Lemma split_not_nil (sep : ascii) (s : string) : Py.split sep s ≠ [].
Proof. unfold Py.split. by destruct (Py.split_fields sep s). Qed.

(** X16. Whatever the configuration holds, the two catalogs built at setup
    are never empty, and no name in them, nor any default group, has white
    space around it or a comma inside; the default groups hold no empty
    name, while a catalog may. *)
Theorem configured_names_are_clean (b : bot) :
  js8groups (setup_js8call b) ≠ []
  /\ js8urgent (setup_js8call b) ≠ []
  /\ (forall g, in_catalog (setup_js8call b) g ->
                Py.strip g = g /\ Py.contains "," g = false)
  /\ (forall g, g ∈ default_groups b ->
                g ≠ EmptyString /\ Py.strip g = g
                /\ Py.contains "," g = false).
Proof.
  unfold setup_js8call, in_catalog. proj_simpl. split_and!.
  - intros H. apply fmap_nil_inv in H. by apply split_not_nil in H.
  - intros H. apply fmap_nil_inv in H. by apply split_not_nil in H.
  - intros g [H|H]; by eapply stripped_field.
  - intros g H. unfold default_groups in H.
    apply list_elem_of_filter in H as [Hne H].
    split; [exact Hne|]. by eapply stripped_field.
Qed.

Lemma split_fields_trailing (sep : ascii) (s : string) :
  EmptyString ∈ (Py.split_fields sep (s ++ String sep EmptyString)).2.
Proof.
  induction s as [|c r IH].
  - simpl. rewrite Ascii.eqb_refl. simpl. apply list_elem_of_here.
  - simpl. destruct (Py.split_fields sep (r ++ String sep EmptyString))
      as [h t]. simpl in IH.
    destruct (Ascii.eqb c sep); simpl; [by apply list_elem_of_further|done].
Qed.

Lemma catch_all_group (sender content : string) (b : bot) :
  EmptyString ∈ js8groups b ->
  has_blocked_word content b = false ->
  exists g body,
    g ∈ js8groups b
    /\ check_and_forward sender content b
       = forward_group_message sender g body b.
Proof.
  intros Hin Hok. unfold check_and_forward. rewrite Hok.
  unfold forward_by_scope.
  assert (Hany : Py.any (Py.startswith content) (js8groups b) = true).
  { unfold Py.any. apply existsb_exists. exists EmptyString.
    split; [by apply list_elem_of_In|reflexivity]. }
  rewrite Hany. destruct (first_match_some _ _ Hany) as (g & -> & Hg & _).
  by eexists _, _.
Qed.

(** X17. A comma at the end of the ordinary-group setting puts the empty
    name into the catalog, and with the empty name in the catalog every
    message that is not blocked is forwarded as a group message to some
    ordinary group: none is direct, none is urgent. *)
Theorem trailing_comma_catches_all (s : string) (b : bot) :
  cfg_js8groups (config_of b) = Some (s ++ ",") ->
  EmptyString ∈ js8groups (setup_js8call b)
  /\ forall b' sender content,
       js8groups b' = js8groups (setup_js8call b) ->
       has_blocked_word content b' = false ->
       exists g body,
         g ∈ js8groups b'
         /\ check_and_forward sender content b'
            = forward_group_message sender g body b'.
Proof.
  intros Hcfg.
  assert (Hin : EmptyString ∈ js8groups (setup_js8call b)).
  { unfold setup_js8call. proj_simpl. rewrite Hcfg. simpl.
    apply list_elem_of_fmap. exists EmptyString. split; [reflexivity|].
    unfold Py.split.
    pose proof (split_fields_trailing "," s) as H.
    destruct (Py.split_fields "," (s ++ ",")) as [h t]. simpl in H.
    by apply list_elem_of_further. }
  split; [exact Hin|].
  intros b' sender content Hb' Hok. apply catch_all_group; [|exact Hok].
  by rewrite Hb'.
Qed.

(** ** The group listing *)

Lemma string_app_assoc (a b c : string) : (a ++ b) ++ c = a ++ b ++ c.
Proof.
  induction a as [|x a IH]; [reflexivity|].
  change (String x ((a ++ b) ++ c) = String x (a ++ b ++ c)).
  by rewrite IH.
Qed.

Lemma string_app_nil_r (a : string) : a ++ EmptyString = a.
Proof.
  induction a as [|x a IH]; [reflexivity|].
  change (String x (a ++ EmptyString) = String x a). by rewrite IH.
Qed.

Lemma lines_fold (line : string -> string) (l : list string) :
  forall init,
    foldl (λ output group, output ++ line group) init l
    = init ++ Py.join EmptyString (map line l).
Proof.
  induction l as [|x l IH]; intros init.
  - simpl. by rewrite string_app_nil_r.
  - cbn [foldl map]. rewrite IH, string_app_assoc. f_equal.
    destruct l as [|y l]; [simpl; by rewrite string_app_nil_r|].
    reflexivity.
Qed.

Lemma listing_lines (user : string) (b : bot) :
  exists ls,
    NoDup ls
    /\ (forall g, g ∈ ls <-> in_catalog b g)
    /\ show_groups user b
       = ("Available groups:" ++ String "010" EmptyString)
         ++ Py.join EmptyString
              (map (group_line (dd_get (user_groups b) user)
                               (dd_get (muted_users b) user)) ls).
Proof.
  exists (elements (list_to_set (js8groups b ++ js8urgent b) : gset string)).
  split_and!.
  - apply NoDup_elements.
  - intros g. rewrite elem_of_elements, elem_of_list_to_set, elem_of_app.
    reflexivity.
  - unfold show_groups. apply lines_fold.
Qed.

(** X18. The group listing has, after its heading, one line for each
    group of the two catalogs and no other line: a group that stands in
    both catalogs, or twice in one, is listed once; the line tells whether
    the user's groups hold the group and whether the user's mutes do. *)
Theorem listing_has_each_group_once (user : string) (b : bot) :
  exists ls,
    NoDup ls
    /\ (forall g, g ∈ ls <-> in_catalog b g)
    /\ show_groups user b
       = ("Available groups:" ++ String "010" EmptyString)
         ++ Py.join EmptyString
              (map (group_line (dd_get (user_groups b) user)
                               (dd_get (muted_users b) user)) ls).
Proof. apply listing_lines. Qed.

(** X19. After a user has left the distribution list, the listing for
    that user shows every group as not subscribed and none as muted. *)
Theorem listing_after_leaving (user : string) (b : bot) :
  user ∈ distro_list b ->
  exists ls,
    NoDup ls
    /\ (forall g, g ∈ ls <-> in_catalog b g)
    /\ show_groups user (remove_from_distro_list user b)
       = ("Available groups:" ++ String "010" EmptyString)
         ++ Py.join EmptyString
              (map (λ g, g ++ " [Not subscribed]" ++ String "010" EmptyString)
                   ls).
Proof.
  intros Hu.
  destruct (remove_gone user b Hu) as (_ & Hug & Hmu).
  assert (Hcat : js8groups (remove_from_distro_list user b) = js8groups b
                 /\ js8urgent (remove_from_distro_list user b) = js8urgent b).
  { unfold remove_from_distro_list. rewrite decide_True by done.
    set (b1 := set_registry _ _ _ b).
    destruct (save_spec b1) as (_ & _ & _ & _ & _ & _ & _ & _ & _ & _ & H1 & H2 & _).
    proj_simpl. by rewrite H1, H2. }
  destruct Hcat as [Hg Hq].
  destruct (listing_lines user (remove_from_distro_list user b))
    as (ls & Hnd & Hin & Heq).
  exists ls. split; [exact Hnd|]. split.
  - intros g. rewrite Hin. unfold in_catalog. by rewrite Hg, Hq.
  - rewrite Heq, (dd_get_absent _ _ Hug), (dd_get_absent _ _ Hmu).
    reflexivity.
Qed.

(** ** Lines that do not parse *)

Lemma eq_but_log_refl (b : bot) : eq_but_log b b.
Proof. unfold eq_but_log. by split_and!. Qed.

Lemma eq_but_log_trans (b1 b2 b3 : bot) :
  eq_but_log b1 b2 -> eq_but_log b2 b3 -> eq_but_log b1 b3.
Proof. unfold eq_but_log. intros H1 H2. split_and!; by etrans; [apply H2|apply H1]. Qed.

Lemma eq_but_log_log_l (lv : level) (text : string) (b b' : bot) :
  eq_but_log b b' -> eq_but_log (log lv text b) b'.
Proof. intros H. exact H. Qed.

Lemma eq_but_log_log_r (lv : level) (text : string) (b b' : bot) :
  eq_but_log b b' -> eq_but_log b (log lv text b').
Proof. intros H. exact H. Qed.

Lemma eq_but_log_recorded (lv : level) (text sender receiver message : string)
    (b b' : bot) :
  eq_but_log b b' ->
  eq_but_log (log lv text (insert_message sender receiver message b))
             (log lv text (insert_message sender receiver message b')).
Proof.
  unfold eq_but_log. proj_simpl. intros H. split_and!; try apply H.
  f_equal. apply H.
Qed.

Lemma send_to_users_respects (message : string) (group : option string)
    (b b' : bot) :
  eq_but_log b b' ->
  eq_but_log (_send_to_users message group b)
             (_send_to_users message group b').
Proof.
  intros (Hcfg & Hg & Hu & Hbw & Hd & Hug & Hmu & Hst & Hup & Hs & Hdb
          & Hc & Ht).
  unfold _send_to_users. rewrite Hd, Hug, Hmu.
  destruct (foldl (select_user group) _ _) as [[ug mu] fs].
  rewrite !send_fold. unfold eq_but_log. proj_simpl.
  split_and!; try done. by rewrite Hs.
Qed.

Lemma check_and_forward_respects (sender content : string) (b b' : bot) :
  eq_but_log b b' ->
  eq_but_log (check_and_forward sender content b)
             (check_and_forward sender content b').
Proof.
  intros H. pose proof H as (_ & Hg & Hu & Hbw & _).
  unfold check_and_forward, forward_by_scope, has_blocked_word.
  rewrite Hg, Hu, Hbw.
  destruct (Py.any _ (blocked_words b)); [exact H|].
  destruct (Py.any _ (js8groups b)).
  - destruct (Py.first_match _ (js8groups b)) as [g|]; [|exact H].
    unfold forward_group_message.
    by apply eq_but_log_recorded, send_to_users_respects.
  - destruct (Py.any _ (js8urgent b)).
    + destruct (Py.first_match _ (js8urgent b)) as [g|]; [|exact H].
      unfold forward_urgent_message.
      by apply eq_but_log_recorded, send_to_users_respects.
    + unfold forward_direct_message.
      by apply eq_but_log_recorded, send_to_users_respects.
Qed.

Lemma handle_respects (data : decoded) (b b' : bot) :
  eq_but_log b b' ->
  eq_but_log (handle_js8call_message data b)
             (handle_js8call_message data b').
Proof.
  intros H. destruct data as [[ty|] value|]; try exact H.
  unfold handle_js8call_message.
  destruct (jval_eq ty "RX.DIRECTED"); [|exact H].
  destruct value as [[v|]|]; try exact H.
  destruct (length (Py.split ":" v) <? 2)%nat; [exact H|].
  by apply check_and_forward_respects.
Qed.

Lemma process_lines_events (lines : list string) :
  forall b b',
    eq_but_log b b' -> existsb line_raises lines = false ->
    exists b'',
      process_lines b' lines = Returned b''
      /\ eq_but_log
           (foldl (λ b0 event, handle_js8call_message event b0) b
                  (omap line_event lines))
           b''.
Proof.
  induction lines as [|line lines IH]; intros b b' H Hno; [by exists b'|].
  cbn [existsb] in Hno. apply orb_false_iff in Hno as [Hl Hno].
  cbn [process_lines omap list_omap].
  unfold process_line, line_event. unfold line_raises in Hl.
  destruct (decide (line = EmptyString)); [by apply IH|].
  destruct (json_loads io line) as [event| |]; [| |discriminate].
  - cbn [foldl]. apply IH; [|exact Hno]. by apply handle_respects.
  - apply IH; [|exact Hno]. exact H.
Qed.

Lemma process_lines_cut (l1 : list string) (bad : string)
    (l2 : list string) :
  forall b b',
    eq_but_log b b' -> existsb line_raises l1 = false ->
    line_raises bad = true ->
    exists b'',
      process_lines b' (l1 ++ bad :: l2) = Raised b''
      /\ eq_but_log
           (foldl (λ b0 event, handle_js8call_message event b0) b
                  (omap line_event l1))
           b''.
Proof.
  induction l1 as [|line l1 IH]; intros b b' H Hno Hbad.
  - exists b'. split; [|exact H].
    cbn [app process_lines]. unfold process_line. unfold line_raises in Hbad.
    destruct (decide (bad = EmptyString)); [discriminate|].
    by destruct (json_loads io bad).
  - cbn [existsb] in Hno. apply orb_false_iff in Hno as [Hl Hno].
    change ((line :: l1) ++ bad :: l2)%list
      with (line :: (l1 ++ bad :: l2))%list.
    cbn [process_lines omap list_omap].
    unfold process_line, line_event. unfold line_raises in Hl.
    destruct (decide (line = EmptyString)); [by apply IH|].
    destruct (json_loads io line) as [event| |]; [| |discriminate].
    + cbn [foldl]. apply IH; [|exact Hno|exact Hbad].
      by apply handle_respects.
    + apply IH; [|exact Hno|exact Hbad]. exact H.
Qed.

(** X20. The empty lines of a read and the lines that [json.loads] refuses
    with a [JSONDecodeError] leave no trace but log records: as long as no
    line makes [json.loads] raise another exception, a read ends, apart
    from the log, in the state that handling the decoded events in order
    gives, and the link stays connected. The first line on which
    [json.loads] raises another exception ends the read: the events of the
    lines before it have been handled, the lines after it are dropped, and
    the link is marked disconnected. *)
Theorem malformed_lines_are_skipped (data : string) (b : bot) :
  js8call_connected b = true -> data ≠ EmptyString ->
  (existsb line_raises (Py.split "010" (Py.strip data)) = false ->
   eq_but_log
     (foldl (λ b0 event, handle_js8call_message event b0) (emit EvRecv b)
            (omap line_event (Py.split "010" (Py.strip data))))
     (process_js8call_messages (Recv data) b)
   /\ js8call_connected (process_js8call_messages (Recv data) b) = true)
  /\ (forall l1 bad l2,
        Py.split "010" (Py.strip data) = (l1 ++ bad :: l2)%list ->
        existsb line_raises l1 = false -> line_raises bad = true ->
        eq_but_log
          (set_connected false
             (foldl (λ b0 event, handle_js8call_message event b0)
                    (emit EvRecv b) (omap line_event l1)))
          (process_js8call_messages (Recv data) b)).
Proof.
  intros Hc Hne. split.
  - intros Hno. split.
    + unfold process_js8call_messages. rewrite Hc. cbn [negb].
      rewrite decide_False by done.
      destruct (process_lines_events (Py.split "010" (Py.strip data))
                  (emit EvRecv b) (emit EvRecv b)
                  (eq_but_log_refl _) Hno) as (b'' & -> & H).
      exact H.
    + destruct (process_connected (Recv data) b Hc) as [_ ->].
      unfold read_breaks. rewrite bool_decide_false by done.
      by rewrite Hno.
  - intros l1 bad l2 Hsplit Hno Hbad.
    unfold process_js8call_messages. rewrite Hc. cbn [negb].
    rewrite decide_False by done. rewrite Hsplit.
    destruct (process_lines_cut l1 bad l2 (emit EvRecv b) (emit EvRecv b)
                (eq_but_log_refl _) Hno Hbad) as (b'' & -> & H).
    revert H. unfold eq_but_log. proj_simpl. intros H.
    split_and!; try apply H. reflexivity.
Qed.

(** ** Subscribing and the traffic that follows *)

Lemma join_ack (user : string) (gs : list string) (b : bot) :
  user ∈ distro_list b ->
  sent (add_user_to_groups user gs b)
  = (sent b
     ++ [(user,
          ("You have been added to the following groups: "
           ++ Py.join ", " gs)%string,
          deliver io user
            ("You have been added to the following groups: "
             ++ Py.join ", " gs)%string)])%list.
Proof.
  intros Hu. unfold add_user_to_groups. rewrite decide_True by done.
  set (b1 := set_user_groups _ b).
  destruct (save_spec b1) as (_ & _ & _ & _ & Hs & _). proj_simpl.
  by rewrite Hs.
Qed.

(** X21. The answer to a join names every requested group, also the names
    that stand in no catalog and were therefore not added: such a name is
    in the answer and not in the user's groups. *)
Theorem join_answer_names_ignored_groups (user g : string)
    (gs : list string) (b : bot) :
  user ∈ distro_list b -> g ∈ gs -> ¬ in_catalog b g ->
  g ∉ dd_get (user_groups b) user ->
  (g ∉ dd_get (user_groups (add_user_to_groups user gs b)) user)
  /\ sent (add_user_to_groups user gs b)
     = (sent b
        ++ [(user,
             ("You have been added to the following groups: "
              ++ Py.join ", " gs)%string,
             deliver io user
               ("You have been added to the following groups: "
                ++ Py.join ", " gs)%string)])%list.
Proof.
  intros Hu Hg Hcat Hnot. split; [|by apply join_ack].
  unfold add_user_to_groups. rewrite decide_True by done.
  set (b1 := set_user_groups _ b).
  destruct (save_same_contents b1) as (_ & Hug & _). proj_simpl.
  rewrite Hug. subst b1. proj_simpl.
  rewrite (join_fold_user user (in_catalog b)). tauto.
Qed.

(** X22. Once a user has left the distribution list, nothing the radio
    link receives afterwards is sent to that user. *)
Theorem no_traffic_after_leaving (user : string)
    (envs : list (connect_outcome * recv_outcome)) (b : bot) :
  user ∈ distro_list b ->
  exists new,
    sent (js8call_loop envs (remove_from_distro_list user b))
    = (sent (remove_from_distro_list user b) ++ new)%list
    /\ forall u t ok, (u, t, ok) ∈ new -> u ≠ user.
Proof.
  intros Hu. destruct (remove_gone user b Hu) as (Hd & _).
  destruct (loop_members envs (remove_from_distro_list user b))
    as (new & E & Hnew).
  exists new. split; [exact E|].
  intros u t ok Hin. apply Hnew in Hin. rewrite Hd in Hin.
  clear -Hin. set_solver.
Qed.

Lemma add_new_user (user : string) (b : bot) :
  registry_inv b -> user ∉ distro_list b ->
  user ∈ distro_list (add_to_distro_list user b)
  /\ dd_get (user_groups (add_to_distro_list user b)) user
     = list_to_set (default_groups b)
  /\ dd_get (muted_users (add_to_distro_list user b)) user = ∅.
Proof.
  intros Hinv Hu.
  destruct (registry_inv_absent b user Hinv Hu) as [Hug0 Hmu0].
  rewrite (add_joins user b Hu). split; [set_solver|].
  unfold add_to_distro_list. rewrite decide_True by done.
  set (b1 := set_registry _ _ _ b).
  destruct (save_same_contents b1) as (_ & Hug & Hmu). proj_simpl.
  rewrite Hug, Hmu. subst b1. proj_simpl. split.
  - destruct (add_group_fold user (default_groups b) (user_groups b))
      as [_ ->].
    rewrite (dd_get_absent _ _ Hug0). set_solver.
  - by apply dd_get_absent.
Qed.

(** X23. A user who has just been added in a reachable state is among the
    recipients of the next direct message and of the next message to any
    of the default groups: the new subscriber starts with no mute. *)
Theorem new_subscriber_receives (user sender message : string) (b : bot) :
  reachable b -> user ∉ distro_list b ->
  (exists text ok,
     (user, text, ok)
     ∈ drop (length (sent (add_to_distro_list user b)))
         (sent (forward_direct_message sender message
                  (add_to_distro_list user b))))
  /\ forall g,
       g ∈ default_groups b ->
       exists text ok,
         (user, text, ok)
         ∈ drop (length (sent (add_to_distro_list user b)))
             (sent (forward_group_message sender g message
                      (add_to_distro_list user b))).
Proof.
  intros Hreach Hu. apply reachable_inv in Hreach.
  destruct (add_new_user user b Hreach Hu) as (Hin & Hug & Hmu).
  split.
  - destruct (forward_direct_spec sender message (add_to_distro_list user b))
      as (us & -> & _ & Hus & _).
    rewrite drop_app_length. eexists _, _.
    apply list_elem_of_fmap. exists user. split; [reflexivity|].
    apply Hus. by split.
  - intros g Hg.
    destruct (forward_group_spec sender g message (add_to_distro_list user b))
      as (us & -> & _ & Hus & _).
    rewrite drop_app_length. eexists _, _.
    apply list_elem_of_fmap. exists user. split; [reflexivity|].
    apply Hus. split; [exact Hin|]. unfold selected.
    rewrite Hug, Hmu. split; [|set_solver].
    by apply elem_of_list_to_set.
Qed.

End Engine.

(** ** The properties at sample inputs *)

Ltac not_a_prefix :=
  let x := fresh "x" in
  let Hx := fresh "Hx" in
  let rest := fresh "rest" in
  let Hrest := fresh "Hrest" in
  intros x Hx [rest Hrest];
  repeat (apply elem_of_cons in Hx as [->|Hx];
          [simpl in Hrest; discriminate|]);
  by apply elem_of_nil in Hx.

Ltac by_evaluation_true := apply (bool_decide_eq_true_1 _); vm_compute; reflexivity.
Ltac by_evaluation_false := apply (bool_decide_eq_false_1 _); vm_compute; reflexivity.

Example direct_hello_world :
  handle_js8call_message sample_io (rx_directed "N0CALL: Hello world")
    sample_bot
  = forward_direct_message sample_io "N0CALL" "Hello world" sample_bot.
Proof. vm_compute. reflexivity. Qed.

Example group_team_status :
  handle_js8call_message sample_io (rx_directed "N0CALL:TEAM status ok")
    sample_bot
  = forward_group_message sample_io "N0CALL" "TEAM" "status ok" sample_bot.
Proof. vm_compute. reflexivity. Qed.

Example group_team_recipients :
  sent (forward_group_message sample_io "N0CALL" "TEAM" "status ok" sample_bot)
  = [("alice", "Group message from N0CALL to TEAM: status ok", true)].
Proof. vm_compute. reflexivity. Qed.

Example direct_three_users_one_failure :
  sent (forward_direct_message sample_io "N0CALL" "hi" sample_bot)
  = [("carol", "Direct message from N0CALL: hi", true);
     ("alice", "Direct message from N0CALL: hi", true);
     ("bob", "Direct message from N0CALL: hi", false)]
  /\ db (forward_direct_message sample_io "N0CALL" "hi" sample_bot)
     = [("N0CALL", "DIRECT", "hi")].
Proof. vm_compute. split; reflexivity. Qed.

Example bad_line_does_not_stop_the_loop :
  db (js8call_loop sample_io
        [(ConnectOk, Recv ("{" ++ String "010" "N0CALL: hi"))] sample_bot)
  = [("N0CALL", "DIRECT", "hi")].
Proof. vm_compute. reflexivity. Qed.

Example deep_line_ends_the_read :
  db (process_js8call_messages sample_io
        (Recv ("N0CALL: one" ++ String "010" deep_line
               ++ String "010" "N0CALL: two")) sample_bot)
  = [("N0CALL", "DIRECT", "one")]
  /\ js8call_connected
       (process_js8call_messages sample_io
          (Recv ("N0CALL: one" ++ String "010" deep_line
                 ++ String "010" "N0CALL: two")) sample_bot)
     = false.
Proof. vm_compute. split; reflexivity. Qed.

Lemma handle_parses_directed_witness :
  handle_js8call_message sample_io
    (JObject (Some (JStr "RX.ACTIVITY")) None) sample_bot = sample_bot
  /\ handle_js8call_message sample_io (rx_directed "N0CALL hello") sample_bot
     = log WARNING ("Invalid directed message format: " ++ "N0CALL hello")
         sample_bot
  /\ handle_js8call_message sample_io
       (rx_directed ("N0CALL" ++ ":" ++ " Hello: world ")) sample_bot
     = check_and_forward sample_io (Py.strip "N0CALL")
         (Py.strip " Hello: world ") sample_bot.
Proof.
  destruct (handle_parses_directed sample_io sample_bot) as (H1 & H2 & H3).
  split; [|split]; [apply H1|apply H2|apply H3]; reflexivity.
Defined.

Lemma scope_resolution_priority_witness :
  check_and_forward sample_io "N0CALL" "TEAMS status ok" sample_bot
  = forward_group_message sample_io "N0CALL" "TEAM" (Py.strip "S status ok")
      sample_bot
  /\ check_and_forward sample_io "N0CALL" "ALERT fire" sample_bot
     = forward_urgent_message sample_io "N0CALL" "ALERT" (Py.strip " fire")
         sample_bot
  /\ check_and_forward sample_io "N0CALL" "Hello" sample_bot
     = forward_direct_message sample_io "N0CALL" "Hello" sample_bot.
Proof.
  split; [|split].
  - destruct (scope_resolution_priority sample_io "N0CALL" "TEAMS status ok"
                sample_bot eq_refl) as (H & _).
    apply (H [] "TEAM" ["OPS"] "S status ok");
      [reflexivity|not_a_prefix|reflexivity].
  - destruct (scope_resolution_priority sample_io "N0CALL" "ALERT fire"
                sample_bot eq_refl) as (_ & H & _).
    apply (H [] "ALERT" [] " fire");
      [not_a_prefix|reflexivity|not_a_prefix|reflexivity].
  - destruct (scope_resolution_priority sample_io "N0CALL" "Hello"
                sample_bot eq_refl) as (_ & _ & H).
    apply H; not_a_prefix.
Defined.

Lemma blocked_message_dropped_witness :
  (sent (check_and_forward sample_io "N0CALL" "buy SPAM now" sample_bot)
   = sent sample_bot
   /\ db (check_and_forward sample_io "N0CALL" "buy SPAM now" sample_bot)
      = db sample_bot
   /\ same_registry sample_bot
        (check_and_forward sample_io "N0CALL" "buy SPAM now" sample_bot))
  /\ check_and_forward sample_io "N0CALL" "Hello" sample_bot
     = forward_by_scope sample_io "N0CALL" "Hello" sample_bot.
Proof.
  split.
  - destruct (blocked_message_dropped sample_io "N0CALL" "buy SPAM now"
                sample_bot) as [H _].
    destruct H as (_ & H1 & H2 & H3 & _).
    + exists "Spam". split; [apply list_elem_of_here|reflexivity].
    + split; [exact H1|]. split; [exact H2|exact H3].
  - destruct (blocked_message_dropped sample_io "N0CALL" "Hello"
                sample_bot) as [_ H].
    destruct H as [H _]; [|exact H]. intros word Hin.
    apply list_elem_of_singleton in Hin as ->. reflexivity.
Defined.

Lemma join_seeds_default_groups_witness :
  ("dave" ∈ distro_list
              (add_to_distro_list sample_io "dave" (setup_state sample_bot))
   /\ user_groups
        (add_to_distro_list sample_io "dave" (setup_state sample_bot))
      !! "dave"
      = Some (list_to_set (default_groups (setup_state sample_bot))))
  /\ same_registry sample_bot (add_to_distro_list sample_io "alice" sample_bot).
Proof.
  split.
  - destruct (join_seeds_default_groups sample_io "dave"
                (setup_state sample_bot)) as [H _].
    apply H; [apply reach_setup|by_evaluation_false].
  - destruct (join_seeds_default_groups sample_io "alice" sample_bot)
      as [_ H].
    apply H. by_evaluation_true.
Defined.

Lemma leave_removes_everywhere_witness :
  (("bob" ∉ distro_list (remove_from_distro_list sample_io "bob" sample_bot))
   /\ user_groups (remove_from_distro_list sample_io "bob" sample_bot)
      !! "bob" = None
   /\ muted_users (remove_from_distro_list sample_io "bob" sample_bot)
      !! "bob" = None)
  /\ same_registry sample_bot
       (remove_from_distro_list sample_io "dave" sample_bot).
Proof.
  split.
  - destruct (leave_removes_everywhere sample_io "bob" sample_bot)
      as [H _].
    destruct H as (H1 & H2 & H3 & _); [by_evaluation_true|].
    split; [exact H1|]. split; [exact H2|exact H3].
  - destruct (leave_removes_everywhere sample_io "dave" sample_bot)
      as [_ H].
    apply H. by_evaluation_false.
Defined.

Lemma save_load_round_trip_witness :
  distro_list
    (setup_state
       (save_state_to_storage
          (add_to_distro_list sample_io "dave" (setup_state sample_bot))))
  = distro_list (add_to_distro_list sample_io "dave" (setup_state sample_bot)).
Proof.
  assert (Hreach : reachable sample_io
            (add_to_distro_list sample_io "dave" (setup_state sample_bot)))
    by apply reach_add, reach_setup.
  assert (Hup : storage_up
            (add_to_distro_list sample_io "dave" (setup_state sample_bot))
          = true) by (vm_compute; reflexivity).
  pose proof (save_load_round_trip sample_io _ Hreach Hup) as H.
  cbv zeta in H. destruct H as (H & _). exact H.
Defined.



Lemma empty_group_setting_catches_all_witness :
  js8groups (setup_js8call bare_bot) = [EmptyString]
  /\ handle_js8call_message sample_io
       (rx_directed ("N0CALL" ++ ":" ++ " Hello world"))
       (setup_js8call bare_bot)
     = forward_group_message sample_io (Py.strip "N0CALL") EmptyString
         (Py.strip " Hello world") (setup_js8call bare_bot).
Proof.
  destruct (empty_group_setting_catches_all sample_io bare_bot) as [H1 H2];
    [by left|].
  split; [exact H1|].
  apply (H2 (setup_js8call bare_bot) "N0CALL" " Hello world");
    reflexivity.
Defined.

(** ** Further properties at sample inputs *)

Example listing_of_bob :
  show_groups "bob" sample_bot
  = "Available groups:" ++ String "010" "OPS [Not subscribed]"
    ++ String "010" "ALERT [Subscribed]"
    ++ String "010" "TEAM [Subscribed] [Muted]" ++ String "010" "".
Proof. vm_compute. reflexivity. Qed.

Lemma join_groups_adds_catalog_groups_witness :
  ("OPS" ∈ dd_get (user_groups
                      (add_user_to_groups sample_io "alice" ["OPS"; "NOPE"]
                         sample_bot)) "alice"
   <-> "OPS" ∈ dd_get (user_groups sample_bot) "alice"
       \/ ("OPS" ∈ ["OPS"; "NOPE"] /\ in_catalog sample_bot "OPS"))
  /\ same_registry sample_bot
       (add_user_to_groups sample_io "dave" ["OPS"] sample_bot).
Proof.
  split.
  - destruct (join_groups_adds_catalog_groups sample_io "alice"
                ["OPS"; "NOPE"] sample_bot) as [H _].
    destruct H as (_ & H & _); [by_evaluation_true|]. exact (H "OPS").
  - destruct (join_groups_adds_catalog_groups sample_io "dave" ["OPS"]
                sample_bot) as [_ H].
    destruct H as (H & _); [by_evaluation_false|]. exact H.
Defined.

Lemma leave_group_removes_one_group_witness :
  dd_get (user_groups (remove_user_from_group sample_io "bob" "TEAM"
                         sample_bot)) "bob"
  = dd_get (user_groups sample_bot) "bob" ∖ {["TEAM"]}
  /\ same_contents sample_bot
       (remove_user_from_group sample_io "alice" "OPS" sample_bot).
Proof.
  split.
  - destruct (leave_group_removes_one_group sample_io "bob" "TEAM"
                sample_bot) as [H _].
    destruct H as (_ & H & _); [by_evaluation_true|by_evaluation_true|].
    exact H.
  - destruct (leave_group_removes_one_group sample_io "alice" "OPS"
                sample_bot) as [_ H].
    destruct H as (H & _); [right; by_evaluation_false|]. exact H.
Defined.

Lemma join_then_leave_group_witness :
  same_contents sample_bot
    (remove_user_from_group sample_io "alice" "OPS"
       (add_user_to_groups sample_io "alice" ["OPS"] sample_bot)).
Proof.
  apply (join_then_leave_group sample_io "alice" "OPS" sample_bot).
  - by_evaluation_true.
  - left. by_evaluation_true.
  - by_evaluation_false.
Defined.

Lemma other_users_untouched_witness :
  dd_get (user_groups (remove_from_distro_list sample_io "alice" sample_bot))
    "bob"
  = dd_get (user_groups sample_bot) "bob".
Proof.
  destruct (other_users_untouched sample_io "alice" "bob" ["OPS"] "TEAM"
              sample_bot) as (_ & (_ & H & _) & _); [discriminate|].
  exact H.
Defined.

Lemma add_then_remove_witness :
  same_contents (setup_state sample_bot)
    (remove_from_distro_list sample_io "dave"
       (add_to_distro_list sample_io "dave" (setup_state sample_bot))).
Proof.
  apply (add_then_remove sample_io "dave" (setup_state sample_bot)).
  - apply reach_setup.
  - by_evaluation_false.
Defined.

(** A save that failed leaves the store behind, also when the store
    answers again: a restart then loses the user. *)
Example stale_store_after_failed_save :
  elements
    (distro_list
       (set_storage_up true
          (add_to_distro_list sample_io "dave"
             (set_storage_up false (setup_state sample_bot)))))
  = ["dave"]
  /\ elements
       (distro_list
          (setup_state
             (set_storage_up true
                (add_to_distro_list sample_io "dave"
                   (set_storage_up false (setup_state sample_bot))))))
     = [].
Proof. vm_compute. split; reflexivity. Qed.

Lemma restart_restores_registry_witness :
  same_contents
    (add_to_distro_list sample_io "dave" (setup_state sample_bot))
    (setup_state
       (add_to_distro_list sample_io "dave" (setup_state sample_bot))).
Proof.
  assert (Hup0 : storage_up sample_bot = true) by reflexivity.
  destruct (restart_restores_registry sample_io sample_bot sample_bot)
    as (Hsetup & _ & _).
  destruct (Hsetup Hup0) as [Hup1 Hdesc1].
  destruct (restart_restores_registry sample_io (setup_state sample_bot)
              (add_to_distro_list sample_io "dave" (setup_state sample_bot)))
    as (_ & Hstep & _).
  destruct (Hstep Hup1 Hdesc1 (step_add sample_io "dave" _))
    as [Hup2 Hdesc2].
  destruct (restart_restores_registry sample_io
              (add_to_distro_list sample_io "dave" (setup_state sample_bot))
              sample_bot) as (_ & _ & Hrestart).
  apply Hrestart; [apply reach_add, reach_setup|exact Hup2|exact Hdesc2].
Defined.

Lemma store_down_keeps_memory_ahead_witness :
  "dave" ∈ distro_list (add_to_distro_list sample_io "dave" offline_bot)
  /\ storage (add_to_distro_list sample_io "dave" offline_bot)
     = storage offline_bot
  /\ logger (add_to_distro_list sample_io "dave" offline_bot)
     = [(ERROR, "Error saving state to storage");
        (INFO, "Added dave to distribution list")]
  /\ sent (add_to_distro_list sample_io "dave" offline_bot)
     = [("dave",
         "You have been added to the JS8Call message group. You will receive messages when they are available.",
         true)].
Proof.
  destruct (store_down_keeps_memory_ahead sample_io "dave" offline_bot)
    as (H1 & H2 & H3 & H4 & _); [reflexivity|by_evaluation_false|].
  split_and!; [exact H1|exact H2|exact H3|exact H4].
Defined.

Lemma refused_connects_are_retried_witness :
  trace (js8call_loop sample_io
           [(ConnectRaises, RecvRaises); (ConnectRaises, Recv "x")] bare_bot)
  = (trace bare_bot
     ++ mjoin (replicate 2 [EvConnect; EvSleep 1]))%list.
Proof.
  destruct (refused_connects_are_retried sample_io
              [(ConnectRaises, RecvRaises); (ConnectRaises, Recv "x")]
              bare_bot) as (_ & H & _).
  - reflexivity.
  - repeat constructor.
  - exact H.
Defined.

Lemma dropped_events_only_log_witness :
  handle_js8call_message sample_io JNotObject sample_bot = sample_bot
  \/ exists lv text,
       handle_js8call_message sample_io JNotObject sample_bot
       = log lv text sample_bot.
Proof.
  apply (dropped_events_only_log sample_io JNotObject sample_bot).
  intros (ty & v & H & _). discriminate.
Defined.

Lemma accepted_message_recorded_once_witness :
  exists label body,
    db (handle_js8call_message sample_io
          (rx_directed ("N0CALL" ++ ":" ++ "TEAM status ok")) sample_bot)
    = (db sample_bot ++ [(Py.strip "N0CALL", label, body)])%list
    /\ ((label = "DIRECT" /\ body = Py.strip "TEAM status ok")
        \/ (in_catalog sample_bot label
            /\ is_prefix label (Py.strip "TEAM status ok")
            /\ body = Py.strip
                        (Py.slice_from (String.length label)
                           (Py.strip "TEAM status ok")))).
Proof.
  apply (accepted_message_recorded_once sample_io "N0CALL" "TEAM status ok"
           sample_bot); reflexivity.
Defined.

Lemma configured_names_are_clean_witness :
  Py.strip "OPS" = "OPS" /\ Py.contains "," "OPS" = false.
Proof.
  destruct (configured_names_are_clean sample_bot) as (_ & _ & H & _).
  apply H. left. by_evaluation_true.
Defined.

Lemma trailing_comma_catches_all_witness :
  EmptyString ∈ js8groups (setup_js8call offline_bot).
Proof.
  destruct (trailing_comma_catches_all sample_io "TEAM" offline_bot)
    as [H _]; [reflexivity|exact H].
Defined.

Lemma listing_after_leaving_witness :
  exists ls,
    NoDup ls
    /\ (forall g, g ∈ ls <-> in_catalog sample_bot g)
    /\ show_groups "bob" (remove_from_distro_list sample_io "bob" sample_bot)
       = ("Available groups:" ++ String "010" EmptyString)
         ++ Py.join EmptyString
              (map (λ g, g ++ " [Not subscribed]" ++ String "010" EmptyString)
                   ls).
Proof.
  apply (listing_after_leaving sample_io "bob" sample_bot).
  by_evaluation_true.
Defined.

Lemma malformed_lines_are_skipped_witness :
  js8call_connected
    (process_js8call_messages sample_io
       (Recv ("{" ++ String "010" "N0CALL: hi")) sample_bot)
  = true
  /\ eq_but_log
       (set_connected false
          (handle_js8call_message sample_io (rx_directed "N0CALL: one")
             (emit EvRecv sample_bot)))
       (process_js8call_messages sample_io
          (Recv ("N0CALL: one" ++ String "010" deep_line
                 ++ String "010" "N0CALL: two")) sample_bot).
Proof.
  split.
  - destruct (malformed_lines_are_skipped sample_io
                ("{" ++ String "010" "N0CALL: hi") sample_bot) as [H _];
      [reflexivity|discriminate|].
    destruct H as [_ H]; [vm_compute; reflexivity|exact H].
  - destruct (malformed_lines_are_skipped sample_io
                ("N0CALL: one" ++ String "010" deep_line
                 ++ String "010" "N0CALL: two") sample_bot) as [_ H];
      [reflexivity|discriminate|].
    apply (H ["N0CALL: one"] deep_line ["N0CALL: two"]);
      vm_compute; reflexivity.
Defined.

Lemma join_answer_names_ignored_groups_witness :
  "NOPE" ∉ dd_get (user_groups
                      (add_user_to_groups sample_io "alice" ["OPS"; "NOPE"]
                         sample_bot)) "alice".
Proof.
  destruct (join_answer_names_ignored_groups sample_io "alice" "NOPE"
              ["OPS"; "NOPE"] sample_bot) as [H _].
  - by_evaluation_true.
  - by_evaluation_true.
  - intros [H|H]; revert H; by_evaluation_false.
  - by_evaluation_false.
  - exact H.
Defined.

Lemma no_traffic_after_leaving_witness :
  exists new,
    sent (js8call_loop sample_io [(ConnectOk, Recv "N0CALL: hi")]
            (remove_from_distro_list sample_io "bob" sample_bot))
    = (sent (remove_from_distro_list sample_io "bob" sample_bot) ++ new)%list
    /\ forall u t ok, (u, t, ok) ∈ new -> u ≠ "bob".
Proof.
  apply (no_traffic_after_leaving sample_io "bob"
           [(ConnectOk, Recv "N0CALL: hi")] sample_bot).
  by_evaluation_true.
Defined.

Lemma new_subscriber_receives_witness :
  exists text ok,
    (("dave", text, ok) : string * string * bool)
    ∈ drop (length (sent (add_to_distro_list sample_io "dave"
                            (setup_state sample_bot))))
        (sent (forward_direct_message sample_io "N0CALL" "hi"
                 (add_to_distro_list sample_io "dave"
                    (setup_state sample_bot)))).
Proof.
  destruct (new_subscriber_receives sample_io "dave" "N0CALL" "hi"
              (setup_state sample_bot)) as [H _].
  - apply reach_setup.
  - by_evaluation_false.
  - exact H.
Defined.
